(** * socket-adventure: the session protocol engine of [server.py]

    A shallow embedding of the [Server] class of [src/server.py] and the
    properties of its room map, command router, navigation handler and
    session loop.

    Conventions of the embedding.
    - A method of [Server] is a function that takes the instance ([self])
      and returns the updated instance: the fields it assigns are the fields
      that differ.
    - Python [str] and [bytes] values are both [string]; the text exchanged
      with the client is taken within ASCII, where [decode] and [encode] are
      the identity and [strip] removes the ASCII whitespace.  Outside ASCII
      the source differs ([decode] raises on bytes that are not UTF-8,
      [strip] also removes Unicode whitespace), so the theorems that compute
      what [get_input] returns assume ASCII bytes ([Py.isascii]).  The
      server compares lower-cased text only against the ASCII words north,
      south, east, west, quit, say and move.
    - A Python [Optional[str]] is an [option string]; [None] is Python's
      [None].
    - [self.room] is a Python int, hence a [Z]: nothing in the class
      restricts it to the four room numbers.
    - The two sockets are modelled by what they do: the chunks still to be
      delivered by the peer ([inbound]) and the log of the socket operations
      performed so far ([io_log], oldest first).  The peer connects, stays
      connected while it is written to, and ends its stream by an orderly
      close, after which a read returns the empty byte string; a connection
      that is reset, where a read raises, is outside the model.  [bind]
      succeeds for a port in 0..65535 ([valid_port]), which the theorems
      that conclude that [serve] returns assume.
    - The two [while] loops take fuel; [None] means the fuel ran out. *)

From Stdlib Require Import ZArith Ascii String List Bool Lia.
From stdpp Require Import gmap strings.
Import ListNotations.

Local Open Scope string_scope.
Local Open Scope Z_scope.

(** ** Python text primitives *)

Module Py.

(** The characters the source writes as escapes. *)
Definition LF : ascii := ascii_of_nat 10.
Definition DQUOTE : ascii := ascii_of_nat 34.
Definition SPACE : ascii := ascii_of_nat 32.

Definition nl : string := String LF EmptyString.
Definition dquote : string := String DQUOTE EmptyString.

(** [str.lower] on one character: A..Z go to a..z. *)
Definition lower_char (c : ascii) : ascii :=
  let n := nat_of_ascii c in
  if (65 <=? n)%nat && (n <=? 90)%nat then ascii_of_nat (n + 32) else c.

(** [s.lower()] *)
Fixpoint lower (s : string) : string :=
  match s with
  | EmptyString => EmptyString
  | String c s' => String (lower_char c) (lower s')
  end.

(** [c.isspace()] for a character of the ASCII range: tab, line feed,
    vertical tab, form feed, carriage return, the four separators
    0x1c..0x1f and the space. *)
Definition isspace (c : ascii) : bool :=
  let n := nat_of_ascii c in
  ((9 <=? n)%nat && (n <=? 13)%nat)
  || ((28 <=? n)%nat && (n <=? 31)%nat)
  || (n =? 32)%nat.

Fixpoint lstrip (s : string) : string :=
  match s with
  | EmptyString => EmptyString
  | String c s' => if isspace c then lstrip s' else s
  end.

Fixpoint rstrip (s : string) : string :=
  match s with
  | EmptyString => EmptyString
  | String c s' =>
      match rstrip s' with
      | EmptyString => if isspace c then EmptyString else String c EmptyString
      | r => String c r
      end
  end.

(** [s.strip()] on ASCII text: the whitespace of [isspace] is removed at
    both ends. *)
Definition strip (s : string) : string := rstrip (lstrip s).

(** [s.split(sep)] for a one-character separator: every occurrence of the
    separator cuts, so two adjacent separators enclose an empty word and
    the result is never the empty list. *)
Fixpoint split (sep : ascii) (s : string) : list string :=
  match s with
  | EmptyString => [EmptyString]
  | String c s' =>
      if Ascii.eqb c sep then EmptyString :: split sep s'
      else match split sep s' with
           | w :: ws => String c w :: ws
           | [] => [String c EmptyString]
           end
  end.

(** [sep.join(words)] *)
Fixpoint join (sep : string) (words : list string) : string :=
  match words with
  | [] => EmptyString
  | [w] => w
  | w :: ws => w ++ sep ++ join sep ws
  end.

(** [c in s] for a one-character [c]. *)
Fixpoint contains (c : ascii) (s : string) : bool :=
  match s with
  | EmptyString => false
  | String d s' => Ascii.eqb d c || contains c s'
  end.

(** [s.startswith(p)] *)
Definition startswith (p s : string) : bool := String.prefix p s.

(** [bytes.decode()] and [str.encode()] on ASCII text (see [isascii]): the
    identity.  On other bytes the source's [decode] may raise. *)
Definition decode (b : string) : string := b.
Definition encode (s : string) : string := s.

(** How [str.format] renders an [Optional[str]] argument. *)
Definition format_value (v : option string) : string :=
  match v with
  | Some s => s
  | None => "None"
  end.

(** The first [n] bytes of [s] and what is left. *)
Fixpoint take_bytes (n : nat) (s : string) : string * string :=
  match n, s with
  | S n', String c s' => let '(a, b) := take_bytes n' s' in (String c a, b)
  | _, _ => (EmptyString, s)
  end.

(** [b.isascii()]: every byte is below 128. *)
Definition isascii_char (c : ascii) : bool := (nat_of_ascii c <? 128)%nat.

Fixpoint isascii (s : string) : bool :=
  match s with
  | EmptyString => true
  | String c s' => isascii_char c && isascii s'
  end.

End Py.

(** ** The instance and its sockets *)

(** Socket operations, as they appear in the log. *)
Inductive io_event : Type :=
| Bind (port : Z)
| Listen (backlog : Z)
| Accept
| Recv (chunk : string)
| SendAll (data : string)
| CloseConnection
| CloseSocket.

Record Server : Type := mkServer {
  input_buffer : string;
  output_buffer : string;
  done : bool;
  port : Z;
  room : Z;
  inbound : list string;
  io_log : list io_event
}.

Definition set_input_buffer (v : string) (self : Server) : Server :=
  mkServer v (output_buffer self) (done self) (port self) (room self)
           (inbound self) (io_log self).

Definition set_output_buffer (v : string) (self : Server) : Server :=
  mkServer (input_buffer self) v (done self) (port self) (room self)
           (inbound self) (io_log self).

Definition set_done (v : bool) (self : Server) : Server :=
  mkServer (input_buffer self) (output_buffer self) v (port self) (room self)
           (inbound self) (io_log self).

Definition set_room (v : Z) (self : Server) : Server :=
  mkServer (input_buffer self) (output_buffer self) (done self) (port self) v
           (inbound self) (io_log self).

Definition set_inbound (v : list string) (self : Server) : Server :=
  mkServer (input_buffer self) (output_buffer self) (done self) (port self)
           (room self) v (io_log self).

(** Append one socket operation to the log. *)
Definition logged (e : io_event) (self : Server) : Server :=
  mkServer (input_buffer self) (output_buffer self) (done self) (port self)
           (room self) (inbound self) (io_log self ++ [e]).

Definition game_name : string :=
  "Explore the Andromeda Timecraft (ATC) Serendipity".

(** [Server(port)]: the instance [__init__] builds, facing a peer that will
    deliver [chunks]. *)
Definition init (port : Z) (chunks : list string) : Server :=
  mkServer EmptyString EmptyString false port 0 chunks [].

(** [connect]: bind, listen, accept, for a port that can be bound and a
    client that connects. *)
Definition connect (self : Server) : Server :=
  logged Accept (logged (Listen 1) (logged (Bind (port self)) self)).

(** ** The room map *)

Definition craft_plaque : string :=
  Py.nl ++ Py.nl ++ Py.dquote ++ "ATC Serendipity (KTIME01)"
  ++ Py.nl ++ Py.nl ++ "'The universe, in its infinite perfection, is "
  ++ "merely an unlikely series of Serendipities.' - "
  ++ "Stella Starchelle (The Mother of Interstellar "
  ++ "Flight), 0 SFE (Space Faring Era)"
  ++ Py.nl ++ Py.nl ++ "This Timecraft is an Ekiya Glide Company 256 "
  ++ "Glyde Gx 2350 Temporal Edition commissioned on "
  ++ "03/17/32915 SFE by the AHC Department of Temporal Integrity:"
  ++ Py.nl ++ Py.nl ++ "Kima Amber Metoyo (Temporal Operative)"
  ++ Py.nl ++ "Astra Jayne Matsume (Temporal Analyst)"
  ++ Py.nl ++ "Delilah Quincy Matsuka (Temporal Developer)" ++ Py.dquote.

(** The dict [rooms] of [room_description]. *)
Definition rooms : gmap Z string :=
  <[0 := "You are at the temporal developer console.  The curved glass screen displays the tmpOrl IDE and the code to fold the time craft through the fourth dimension (time)."]>
  (<[1 := "You are at the port side of the timecraft.  The only thing here is a small control panel for opening the glass windshield of the timecraft.  The controls are greyed out with the word 'Unauthorized' overlayed on them."]>
  (<[2 := "You are at the starbord side of the timecraft.  There is a plaque on the wall that reads: " ++ craft_plaque]>
  (<[3 := "You are at the front of the timecraft.  The temporal operative and temporal analyst would sit here to guide the craft.  On the dashboard, the chronotonium temporal filament sparkles in a dazzling array of colors underneith a dome of glass."]>
   ∅))).

(** [room_description]: [rooms.get(room_number)]. *)
Definition room_description (room_number : Z) : option string :=
  rooms !! room_number.

(** What a call does: it returns a value or it raises an exception (named
    by its class).  [room_description] has no [raise] and [dict.get] raises
    for no key, so a call of it returns what the body computes. *)
Inductive outcome (A : Type) : Type :=
| Returns (value : A)
| Raises (exception : string).
Arguments Returns {A} value.
Arguments Raises {A} exception.

Definition call_room_description (room_number : Z) : outcome (option string) :=
  Returns (room_description room_number).

(** ** The methods *)

(** [greet] *)
Definition greet (self : Server) : Server :=
  set_output_buffer
    ("Welcome to " ++ game_name ++ "! "
     ++ Py.format_value (room_description (room self)))
    self.

(** [client_connection.recv(bufsize)]: at most [bufsize] bytes of what the
    peer delivers next; once the peer has delivered everything and closed
    its end in an orderly way, the empty byte string, at every further
    call. *)
Definition recv (bufsize : nat) (self : Server) : string * Server :=
  match inbound self with
  | [] => (EmptyString, logged (Recv EmptyString) self)
  | chunk :: later =>
      let '(got, kept) := Py.take_bytes bufsize chunk in
      let pending := match kept with
                     | EmptyString => later
                     | _ => kept :: later
                     end in
      (got, logged (Recv got) (set_inbound pending self))
  end.

(** The loop of [get_input]: [while b'\n' not in msg: msg += recv(16)]. *)
Fixpoint get_input_loop (fuel : nat) (msg : string) (self : Server)
  : option (string * Server) :=
  if Py.contains Py.LF msg then Some (msg, self)
  else match fuel with
       | O => None
       | S fuel' =>
           let '(got, self') := recv 16 self in
           get_input_loop fuel' (msg ++ got) self'
       end.

(** [get_input] *)
Definition get_input (fuel : nat) (self : Server) : option Server :=
  match get_input_loop fuel EmptyString self with
  | Some (msg, self') =>
      Some (set_input_buffer (Py.strip (Py.decode msg)) self')
  | None => None
  end.

Definition cannot_move : string := "Bad! You cannot move in that direction.".

Definition collapsing : string :=
  "You have some how entered an invalid state and the "
  ++ "timeline is collapsing!  You feel an unnerving lurch "
  ++ "as you are torn from the colapsing timeline and "
  ++ "returned to a stable timeline.".

(** [move].  The first component of the pair is the instance after the
    [if]/[elif] chain, the second the local variable [room]. *)
Definition move (argument : string) (self : Server) : Server :=
  let argument := Py.lower argument in
  let '(self, text) :=
    if (argument =? "north")%string && (room self =? 0) then
      (set_room 3 self, None)
    else if (argument =? "south")%string && (room self =? 3) then
      (set_room 0 self, None)
    else if (argument =? "east")%string && (room self =? 0) then
      (set_room 1 self, None)
    else if (argument =? "east")%string && (room self =? 2) then
      (set_room 0 self, None)
    else if (argument =? "west")%string && (room self =? 0) then
      (set_room 2 self, None)
    else if (argument =? "west")%string && (room self =? 1) then
      (set_room 0 self, None)
    else
      (self, Some cannot_move) in
  let text := match text with
              | None => room_description (room self)
              | Some _ => text
              end in
  match text with
  | Some (String _ _ as t) => set_output_buffer t self
  | Some EmptyString | None =>
      (* [if not room:] *)
      set_output_buffer collapsing (set_room 0 self)
  end.

(** [say] *)
Definition say (argument : string) (self : Server) : Server :=
  set_output_buffer ("You say, " ++ Py.dquote ++ argument ++ Py.dquote) self.

(** [quit] *)
Definition quit (argument : string) (self : Server) : Server :=
  set_output_buffer "Goodbye!" (set_done true self).

(** The two locals of [route]. *)
Definition command_of (line : string) : string :=
  Py.lower (hd EmptyString (Py.split Py.SPACE line)).

Definition action_of (line : string) : string :=
  Py.join " " (tl (Py.split Py.SPACE line)).

(** The dict [functions] of [route]. *)
Definition functions : gmap string (string → Server → Server) :=
  <["quit" := quit]> (<["say" := say]> (<["move" := move]> ∅)).

Definition unknown_command : string := "Bad! You can either move, say, or quit.".

(** [route] *)
Definition route (self : Server) : Server :=
  let command := command_of (input_buffer self) in
  let action := action_of (input_buffer self) in
  match functions !! command with
  | Some function => function action self
  | None => set_output_buffer unknown_command self
  end.

(** The bytes [push_output] hands to [sendall]. *)
Definition framed (body : string) : string :=
  if Py.startswith "Bad!" body
  then Py.encode (body ++ " " ++ Py.nl)
  else Py.encode ("OK! " ++ body ++ " " ++ Py.nl).

(** [push_output] *)
Definition push_output (self : Server) : Server :=
  logged (SendAll (framed (output_buffer self))) self.

(** The loop of [serve]: [while not self.done: get_input; route;
    push_output]. *)
Fixpoint serve_loop (fuel : nat) (self : Server) : option Server :=
  if done self then Some self
  else match fuel with
       | O => None
       | S fuel' =>
           match get_input fuel' self with
           | Some self' => serve_loop fuel' (push_output (route self'))
           | None => None
           end
       end.

(** The two [close] calls that end [serve]. *)
Definition close_all (self : Server) : Server :=
  logged CloseSocket (logged CloseConnection self).

(** [serve] *)
Definition serve (fuel : nat) (self : Server) : option Server :=
  match serve_loop fuel (push_output (greet (connect self))) with
  | Some self' => Some (close_all self')
  | None => None
  end.

(** ** The specification's vocabulary *)

(** The four room numbers of the map. *)
Definition valid_rooms : list Z := [0; 1; 2; 3].

(** The four direction words. *)
Definition directions : list string := ["north"; "south"; "east"; "west"].

(** The edge set as the specification lists it:
    (room, direction, destination). *)
Definition MoveTable : list (Z * string * Z) :=
  [(0, "north", 3); (3, "south", 0); (0, "east", 1);
   (1, "west", 0); (0, "west", 2); (2, "east", 0)].

(** The response envelope in the specification's words: the prefix, the body
    and one line feed. *)
Definition framed_by_spec (body : string) : string :=
  (if Py.startswith "Bad!" body then body else "OK! " ++ body) ++ Py.nl.

(** The router's split in the specification's words: the verb runs up to the
    first whitespace character, the argument starts after the whitespace run
    that follows it. *)
Fixpoint split_on_whitespace_run (line : string) : string * string :=
  match line with
  | EmptyString => (EmptyString, EmptyString)
  | String c rest =>
      if Py.isspace c then (EmptyString, Py.lstrip rest)
      else let '(verb, argument) := split_on_whitespace_run rest in
           (String c verb, argument)
  end.

(** The bytes that answer [quit]. *)
Definition goodbye_bytes : string := "OK! Goodbye! " ++ Py.nl.

(** The port numbers [bind] accepts. *)
Definition valid_port (p : Z) : Prop := 0 <= p <= 65535.

(** The peer sends ASCII bytes only. *)
Definition ascii_inbound (self : Server) : Prop :=
  Forall (fun chunk => Py.isascii chunk = true) (inbound self).

(** [reaches s t]: the loop of [serve], entered in state [s], is at the head
    of an iteration in state [t] after zero or more full iterations. *)
Inductive reaches : Server -> Server -> Prop :=
| reaches_here (s : Server) : reaches s s
| reaches_turn (fuel : nat) (s s1 t : Server) :
    done s = false ->
    get_input fuel s = Some s1 ->
    reaches (push_output (route s1)) t ->
    reaches s t.

(** The peer has nothing left to deliver that holds a line feed: it closes
    its end, in an orderly way, before the line is complete. *)
Definition starved (self : Server) : Prop :=
  Forall (fun chunk => Py.contains Py.LF chunk = false) (inbound self).

(** ** Vocabulary of the session properties *)

(** The bytes of a sequence of chunks, in order. *)
Definition glue (chunks : list string) : string :=
  fold_right String.append EmptyString chunks.

(** A chunk that one [recv(16)] takes whole. *)
Definition fits (chunk : string) : Prop := (String.length chunk <= 16)%nat.

Definition is_recv (e : io_event) : Prop := exists chunk, e = Recv chunk.

(** One exchange in the log: one or more reads, then one send. *)
Definition exchange (events : list io_event) : Prop :=
  exists recvs data,
    recvs <> [] /\ Forall is_recv recvs /\ events = (recvs ++ [SendAll data])%list.

(** One turn of the loop of [serve] on a line that arrives as the one chunk
    at the head of [inbound]: the read, [route], [push_output]. *)
Definition turn (self : Server) (chunk : string) : Server :=
  push_output
    (route
       (set_input_buffer (Py.strip (Py.decode chunk))
          (logged (Recv chunk) (set_inbound (tl (inbound self)) self)))).

(** * Properties *)

(** ** Text primitives *)

Section TextLemmas.

Variable sep : ascii.

Lemma split_not_nil (s : string) : Py.split sep s <> [].
Proof.
  induction s as [|c s IH]; simpl; [discriminate|].
  destruct (Ascii.eqb c sep); [discriminate|].
  destruct (Py.split sep s); [contradiction|discriminate].
Qed.

Lemma split_without_sep (s : string) :
  Py.contains sep s = false -> Py.split sep s = [s].
Proof.
  induction s as [|c s IH]; simpl; intros H; [reflexivity|].
  apply orb_false_iff in H as [Hc Hs].
  rewrite Hc, (IH Hs). reflexivity.
Qed.

Lemma split_at_first_sep (v a : string) :
  Py.contains sep v = false ->
  Py.split sep (v ++ String sep a) = v :: Py.split sep a.
Proof.
  induction v as [|c v IH]; simpl; intros H.
  - rewrite Ascii.eqb_refl. reflexivity.
  - apply orb_false_iff in H as [Hc Hv].
    rewrite Hc, (IH Hv). reflexivity.
Qed.

Lemma join_cons (j w : string) (ws : list string) :
  ws <> [] -> Py.join j (w :: ws) = w ++ j ++ Py.join j ws.
Proof. destruct ws; [contradiction|reflexivity]. Qed.

Lemma join_split (s : string) :
  Py.join (String sep EmptyString) (Py.split sep s) = s.
Proof.
  induction s as [|c s IH]; simpl; [reflexivity|].
  pose proof (split_not_nil s) as Hnn.
  destruct (Ascii.eqb_spec c sep) as [->|Hne].
  - rewrite join_cons by exact Hnn. rewrite IH. reflexivity.
  - destruct (Py.split sep s) as [|w ws] eqn:E; [contradiction|].
    destruct ws as [|w' ws].
    + simpl in *. now rewrite IH.
    + rewrite join_cons by discriminate.
      rewrite join_cons in IH by discriminate.
      change (String c w ++ ?t) with (String c (w ++ t)).
      f_equal. exact IH.
Qed.

Lemma contains_app (a b : string) :
  Py.contains sep (a ++ b) = Py.contains sep a || Py.contains sep b.
Proof.
  induction a as [|c a IH]; simpl; [reflexivity|].
  rewrite IH. apply orb_assoc.
Qed.

Lemma take_bytes_contains (n : nat) (s : string) :
  Py.contains sep s = false ->
  Py.contains sep (fst (Py.take_bytes n s)) = false
  /\ Py.contains sep (snd (Py.take_bytes n s)) = false.
Proof.
  revert s. induction n as [|n IH]; intros s H.
  - destruct s; simpl; auto.
  - destruct s as [|c s]; simpl; [auto|].
    simpl in H. apply orb_false_iff in H as [Hc Hs].
    destruct (IH s Hs) as [H1 H2].
    destruct (Py.take_bytes n s) as [a b]. simpl in *.
    rewrite Hc, H1. auto.
Qed.

End TextLemmas.

Lemma append_length (a b : string) :
  String.length (a ++ b) = (String.length a + String.length b)%nat.
Proof. induction a as [|c a IH]; simpl; [reflexivity|]. now rewrite IH. Qed.

(** ** The two dicts *)

Lemma rooms_outside (n : Z) : ~ In n valid_rooms -> rooms !! n = None.
Proof.
  intros H. unfold rooms, valid_rooms in *. simpl in H.
  rewrite !lookup_insert_ne by (intros E; subst n; tauto).
  apply lookup_empty.
Qed.

Lemma rooms_inside (n : Z) :
  In n valid_rooms -> exists text, rooms !! n = Some text /\ text <> EmptyString.
Proof.
  unfold valid_rooms. simpl.
  intros [<-|[<-|[<-|[<-|[]]]]]; eexists; (split; [reflexivity|discriminate]).
Qed.

Lemma functions_unknown (command : string) :
  ~ In command ["quit"; "say"; "move"] -> functions !! command = None.
Proof.
  intros H. unfold functions. simpl in H.
  rewrite !lookup_insert_ne by (intros E; subst command; tauto).
  apply lookup_empty.
Qed.

Lemma functions_known (command : string) (f : string -> Server -> Server) :
  functions !! command = Some f ->
  (command = "quit" /\ f = quit) \/ (command = "say" /\ f = say)
  \/ (command = "move" /\ f = move).
Proof.
  unfold functions. intros H.
  apply lookup_insert_Some in H as [[<- <-]|[_ H]]; [auto|].
  apply lookup_insert_Some in H as [[<- <-]|[_ H]]; [auto|].
  apply lookup_insert_Some in H as [[<- <-]|[_ H]]; [auto|].
  rewrite lookup_empty in H. discriminate.
Qed.

Lemma functions_quit : functions !! "quit" = Some quit.
Proof. unfold functions. apply lookup_insert_eq. Qed.

Lemma functions_say : functions !! "say" = Some say.
Proof.
  unfold functions. rewrite lookup_insert_ne by discriminate.
  apply lookup_insert_eq.
Qed.

Lemma functions_move : functions !! "move" = Some move.
Proof.
  unfold functions. rewrite !lookup_insert_ne by discriminate.
  apply lookup_insert_eq.
Qed.

(** ** Room map *)

(** C5, as the code has it: for each of the room numbers 0, 1, 2, 3 a call
    of [room_description] returns that room's text, which is not empty; for
    every other number the call returns [None]: it raises nothing. *)
Theorem room_description_returns (room_number : Z) :
  (In room_number valid_rooms ->
   exists text, text <> EmptyString
                /\ rooms !! room_number = Some text
                /\ call_room_description room_number = Returns (Some text))
  /\ (~ In room_number valid_rooms ->
      call_room_description room_number = Returns None).
Proof.
  unfold call_room_description, room_description. split; intros H.
  - destruct (rooms_inside _ H) as (text & E & Hne).
    exists text. rewrite E. auto.
  - now rewrite rooms_outside.
Qed.

Lemma room_description_returns_witness :
  (exists text, text <> EmptyString
                /\ rooms !! 3 = Some text
                /\ call_room_description 3 = Returns (Some text))
  /\ call_room_description 4 = Returns None.
Proof.
  split.
  - apply (proj1 (room_description_returns 3)). simpl. tauto.
  - apply (proj2 (room_description_returns 4)). simpl. lia.
Defined.

(** C5, counterexample: called with 4, [room_description] does not fail with
    InvalidRoom; it returns [None], which [greet] then formats into the
    welcome text. *)
Lemma room_description_4_no_error :
  call_room_description 4 <> Raises "InvalidRoom"
  /\ call_room_description 4 = Returns None
  /\ output_buffer (greet (set_room 4 (init 50000 [])))
     = "Welcome to Explore the Andromeda Timecraft (ATC) Serendipity! None".
Proof. split; [discriminate|split; reflexivity]. Qed.

(** ** Navigation *)

(** Off the table, the [else] branch of [move] runs, whatever the value of
    [self.room]. *)
Lemma move_off_table (argument : string) (self : Server) :
  (forall destination,
      ~ In (room self, Py.lower argument, destination) MoveTable) ->
  move argument self = set_output_buffer cannot_move self.
Proof.
  intros H.
  assert (F : forall d r destination,
             In (r, d, destination) MoveTable ->
             ((Py.lower argument =? d)%string && (room self =? r))%bool = false).
  { intros d r destination Hin.
    destruct (String.eqb_spec (Py.lower argument) d) as [Ed|]; [|reflexivity].
    destruct (Z.eqb_spec (room self) r) as [Er|]; [|reflexivity].
    exfalso. apply (H destination). now rewrite Ed, Er. }
  unfold move.
  rewrite (F "north" 0 3), (F "south" 3 0), (F "east" 0 1),
    (F "east" 2 0), (F "west" 0 2), (F "west" 1 0)
    by (unfold MoveTable; simpl; tauto).
  reflexivity.
Qed.

(** C2: for each of the six edges of the table, [move] called in the edge's
    room with a direction argument that lower-cases to the edge's direction
    sets [self.room] to the edge's destination and puts the description of
    that destination into the output buffer. *)
Theorem move_along_edge (argument : string) (self : Server) (destination : Z) :
  In (room self, Py.lower argument, destination) MoveTable ->
  exists text,
    room_description destination = Some text
    /\ move argument self = set_output_buffer text (set_room destination self)
    /\ room (move argument self) = destination
    /\ output_buffer (move argument self) = text.
Proof.
  unfold MoveTable. simpl In.
  intros [E|[E|[E|[E|[E|[E|[]]]]]]]; inversion E as [[Hr Ha]]; subst destination;
    (eexists; split; [reflexivity|]);
    unfold move; rewrite <- Ha, <- Hr; repeat split; reflexivity.
Qed.

Lemma move_along_edge_witness :
  exists text,
    room_description 3 = Some text
    /\ move "NoRtH" (init 50000 []) = set_output_buffer text (set_room 3 (init 50000 []))
    /\ room (move "NoRtH" (init 50000 [])) = 3
    /\ output_buffer (move "NoRtH" (init 50000 [])) = text.
Proof.
  apply (move_along_edge "NoRtH" (init 50000 []) 3).
  simpl. tauto.
Defined.

(** Every edge of [MoveTable] carries one of the four direction words. *)
Lemma MoveTable_directions (r destination : Z) (d : string) :
  In (r, d, destination) MoveTable -> In d directions.
Proof.
  unfold MoveTable, directions. simpl.
  intros [E|[E|[E|[E|[E|[E|[]]]]]]]; inversion E; tauto.
Qed.

(** C3: in each of the rooms 0, 1, 2, 3, when the lower-cased argument is
    not a direction word or forms with the room a pair that is not in the
    table, [move] leaves [self.room] as it is and answers the fixed
    rejection text, which goes out under the [Bad!] marker and not under
    [OK!]. *)
Theorem move_rejected (argument : string) (self : Server) :
  In (room self) valid_rooms ->
  (~ In (Py.lower argument) directions
   \/ forall destination,
        ~ In (room self, Py.lower argument, destination) MoveTable) ->
  move argument self = set_output_buffer cannot_move self
  /\ room (move argument self) = room self
  /\ output_buffer (move argument self)
     = "Bad! " ++ "You cannot move in that direction."
  /\ framed (output_buffer (move argument self))
     = "Bad! You cannot move in that direction. " ++ Py.nl
  /\ Py.startswith "OK!" (framed (output_buffer (move argument self))) = false.
Proof.
  intros _ H.
  assert (Hoff : forall destination,
             ~ In (room self, Py.lower argument, destination) MoveTable).
  { destruct H as [H|H]; [|exact H].
    intros destination Hin. apply H.
    eapply MoveTable_directions; eassumption. }
  rewrite (move_off_table _ _ Hoff). repeat split; reflexivity.
Qed.

Lemma move_rejected_witness :
  move "east" (set_room 3 (init 50000 []))
  = set_output_buffer cannot_move (set_room 3 (init 50000 []))
  /\ room (move "up" (set_room 1 (init 50000 []))) = 1.
Proof.
  split.
  - apply (move_rejected "east" (set_room 3 (init 50000 []))).
    + simpl. tauto.
    + right. intros destination. simpl.
      intros [E|[E|[E|[E|[E|[E|[]]]]]]]; discriminate E.
  - apply (move_rejected "up" (set_room 1 (init 50000 []))).
    + simpl. tauto.
    + left. simpl. intros [E|[E|[E|[E|[]]]]]; discriminate E.
Defined.

(** No call of [move] ends in the repair branch: the text it leaves in the
    output buffer is never the diagnostic. *)
Lemma move_never_repairs (argument : string) (self : Server) :
  output_buffer (move argument self) <> collapsing.
Proof.
  unfold move.
  repeat match goal with
  | |- context [if (?a && ?b)%bool then _ else _] => destruct (a && b)%bool
  end; intros E; vm_compute in E; discriminate E.
Qed.

(** With [self.room] outside the map, no pair is in the table. *)
Lemma move_outside_map (argument : string) (self : Server) :
  ~ In (room self) valid_rooms ->
  move argument self = set_output_buffer cannot_move self.
Proof.
  intros H. apply move_off_table. intros destination Hin. apply H.
  unfold MoveTable, valid_rooms in *. simpl in *.
  destruct Hin as [E|[E|[E|[E|[E|[E|[]]]]]]]; inversion E; tauto.
Qed.

(** C4, what the code does: with [self.room] equal to 4, which is no key of
    the room map, [move] keeps 4 and answers the rejection text for every
    argument; and [move] never answers the diagnostic at all. *)
Theorem move_invalid_room_not_repaired :
  (forall argument self,
      move argument (set_room 4 self)
      = set_output_buffer cannot_move (set_room 4 self)
      /\ room (move argument (set_room 4 self)) = 4
      /\ room_description 4 = None)
  /\ (forall argument self, output_buffer (move argument self) <> collapsing).
Proof.
  split.
  - intros argument self.
    rewrite (move_outside_map argument (set_room 4 self))
      by (simpl; lia).
    repeat split; reflexivity.
  - exact move_never_repairs.
Qed.

(** ** Response envelope *)

Lemma framed_shape (body : string) :
  framed body
  = (if Py.startswith "Bad!" body then body else "OK! " ++ body)
    ++ " " ++ Py.nl.
Proof.
  unfold framed, Py.encode.
  destruct (Py.startswith "Bad!" body); reflexivity.
Qed.

(** C1, what the code does: [push_output] puts a space between the body and
    the line feed, so no body is framed as the grammar says, and after
    [quit] the bytes sent are [OK! Goodbye!], a space and the line feed. *)
Theorem push_output_trailing_space :
  (forall body, framed body <> framed_by_spec body)
  /\ (forall argument self,
         io_log (push_output (quit argument self))
         = (io_log self ++ [SendAll ("OK! Goodbye! " ++ Py.nl)])%list)
  /\ "OK! Goodbye! " ++ Py.nl <> "OK! Goodbye!" ++ Py.nl.
Proof.
  split; [|split].
  - intros body E. rewrite framed_shape in E. unfold framed_by_spec in E.
    apply (f_equal String.length) in E.
    rewrite !append_length in E. simpl in E. lia.
  - intros argument self. reflexivity.
  - discriminate.
Qed.

(** ** Command router *)

Lemma command_action_at_first_space (verb argument : string) :
  Py.contains Py.SPACE verb = false ->
  command_of (verb ++ " " ++ argument) = Py.lower verb
  /\ action_of (verb ++ " " ++ argument) = argument.
Proof.
  intros H. unfold command_of, action_of.
  change (verb ++ " " ++ argument) with (verb ++ String Py.SPACE argument).
  rewrite (split_at_first_sep _ _ _ H). simpl hd. simpl tl.
  split; [reflexivity|]. apply join_split.
Qed.

Lemma command_action_without_space (line : string) :
  Py.contains Py.SPACE line = false ->
  command_of line = Py.lower line /\ action_of line = EmptyString.
Proof.
  intros H. unfold command_of, action_of.
  rewrite (split_without_sep _ _ H). split; reflexivity.
Qed.

(** C6, as the code has it: [route] cuts the line at its first space
    character.  The verb is the text before that space, lower-cased; the
    argument is all the text after it, unchanged, and is what the handler
    found for the verb is called with; a line with no space is all verb and
    its argument is empty. *)
Theorem route_splits_at_first_space (verb argument : string) (self : Server) :
  Py.contains Py.SPACE verb = false ->
  command_of (verb ++ " " ++ argument) = Py.lower verb
  /\ action_of (verb ++ " " ++ argument) = argument
  /\ command_of verb = Py.lower verb
  /\ action_of verb = EmptyString
  /\ route (set_input_buffer (verb ++ " " ++ argument) self)
     = match functions !! Py.lower verb with
       | Some function =>
           function argument (set_input_buffer (verb ++ " " ++ argument) self)
       | None =>
           set_output_buffer unknown_command
             (set_input_buffer (verb ++ " " ++ argument) self)
       end
  /\ (Py.lower verb = "say" ->
      output_buffer (route (set_input_buffer (verb ++ " " ++ argument) self))
      = "You say, " ++ Py.dquote ++ argument ++ Py.dquote).
Proof.
  intros H.
  destruct (command_action_at_first_space verb argument H) as [Hc Ha].
  destruct (command_action_without_space verb H) as [Hc' Ha'].
  repeat split; try assumption.
  - unfold route. simpl input_buffer. rewrite Hc, Ha. reflexivity.
  - intros Hsay. unfold route. simpl input_buffer.
    rewrite Hc, Ha, Hsay, functions_say. reflexivity.
Qed.

Lemma route_splits_at_first_space_witness :
  action_of ("SAY" ++ " " ++ " Hello  There") = " Hello  There"
  /\ output_buffer
       (route (set_input_buffer ("SAY" ++ " " ++ " Hello  There") (init 50000 [])))
     = "You say, " ++ Py.dquote ++ " Hello  There" ++ Py.dquote.
Proof.
  split.
  - apply (route_splits_at_first_space "SAY" " Hello  There" (init 50000 [])).
    reflexivity.
  - apply (route_splits_at_first_space "SAY" " Hello  There" (init 50000 []));
      reflexivity.
Defined.

(** C6, counterexample: on [say], two spaces, [hi] the argument the code
    hands to [say] keeps the second space, while the split on the first
    whitespace run gives [hi]. *)
Lemma route_double_space_counterexample :
  (Py.lower (fst (split_on_whitespace_run "say  hi")),
   snd (split_on_whitespace_run "say  hi")) = ("say", "hi")
  /\ (command_of "say  hi", action_of "say  hi") = ("say", " hi")
  /\ action_of "say  hi" <> snd (split_on_whitespace_run "say  hi")
  /\ output_buffer (route (set_input_buffer "say  hi" (init 50000 [])))
     = "You say, " ++ Py.dquote ++ " hi" ++ Py.dquote.
Proof. repeat split; try reflexivity. discriminate. Qed.

(** C7: when the verb of the line is none of move, say and quit, [route]
    answers the fixed guidance text, which goes out under the [Bad!] marker
    and not under [OK!]; [done], [room] and every other field but the output
    buffer stay as they were. *)
Theorem route_unrecognized (self : Server) :
  ~ In (command_of (input_buffer self)) ["move"; "say"; "quit"] ->
  route self = set_output_buffer unknown_command self
  /\ output_buffer (route self) = "Bad! " ++ "You can either move, say, or quit."
  /\ framed (output_buffer (route self))
     = "Bad! You can either move, say, or quit. " ++ Py.nl
  /\ Py.startswith "OK!" (framed (output_buffer (route self))) = false
  /\ done (route self) = done self
  /\ room (route self) = room self
  /\ input_buffer (route self) = input_buffer self
  /\ inbound (route self) = inbound self
  /\ io_log (route self) = io_log self.
Proof.
  intros H. unfold route.
  rewrite functions_unknown by (simpl in *; tauto).
  repeat split; reflexivity.
Qed.

Lemma route_unrecognized_witness :
  route (init 50000 []) = set_output_buffer unknown_command (init 50000 [])
  /\ done (route (set_input_buffer "dance" (set_room 2 (init 50000 [])))) = false
  /\ room (route (set_input_buffer "dance" (set_room 2 (init 50000 [])))) = 2.
Proof.
  split; [|split].
  - apply (route_unrecognized (init 50000 [])).
    simpl. intros [E|[E|[E|[]]]]; discriminate E.
  - apply (route_unrecognized (set_input_buffer "dance" (set_room 2 (init 50000 [])))).
    simpl. intros [E|[E|[E|[]]]]; discriminate E.
  - apply (route_unrecognized (set_input_buffer "dance" (set_room 2 (init 50000 [])))).
    simpl. intros [E|[E|[E|[]]]]; discriminate E.
Defined.

(** ** Frame of the methods *)

Lemma move_frame (argument : string) (self : Server) :
  exists r text, move argument self = set_output_buffer text (set_room r self).
Proof.
  unfold move.
  repeat match goal with
  | |- context [if (?a && ?b)%bool then _ else _] => destruct (a && b)%bool
  end; eexists _, _; reflexivity.
Qed.

Lemma recv_frame (bufsize : nat) (self : Server) :
  let self' := snd (recv bufsize self) in
  room self' = room self /\ done self' = done self.
Proof.
  unfold recv. destruct (inbound self) as [|chunk later]; [split; reflexivity|].
  destruct (Py.take_bytes bufsize chunk) as [got kept]. split; reflexivity.
Qed.

Lemma get_input_loop_frame (fuel : nat) :
  forall msg self msg' self',
    get_input_loop fuel msg self = Some (msg', self') ->
    room self' = room self /\ done self' = done self.
Proof.
  induction fuel as [|fuel IH]; intros msg self msg' self'; simpl.
  - destruct (Py.contains Py.LF msg); [|discriminate].
    intros E; inversion E; subst; auto.
  - destruct (Py.contains Py.LF msg).
    + intros E; inversion E; subst; auto.
    + pose proof (recv_frame 16 self) as F.
      destruct (recv 16 self) as [got self1]. simpl in F.
      intros E. apply IH in E. destruct E, F. split; congruence.
Qed.

Lemma get_input_frame (fuel : nat) (self self' : Server) :
  get_input fuel self = Some self' ->
  room self' = room self /\ done self' = done self.
Proof.
  unfold get_input.
  destruct (get_input_loop fuel EmptyString self) as [[msg self1]|] eqn:E;
    [|discriminate].
  intros E'; inversion E'; subst. simpl.
  exact (get_input_loop_frame _ _ _ _ _ E).
Qed.

(** C10: when the verb of the line is not move, that is when [route] calls
    [say] or [quit] or takes the fallback, [self.room] keeps its value; [say]
    and [quit] keep it for every argument, and so do [greet], [push_output]
    and a [get_input] that returns. *)
Theorem room_changes_only_in_move (self : Server) :
  (command_of (input_buffer self) <> "move" -> room (route self) = room self)
  /\ (forall argument, room (say argument self) = room self)
  /\ (forall argument, room (quit argument self) = room self)
  /\ room (set_output_buffer unknown_command self) = room self
  /\ room (greet self) = room self
  /\ room (push_output self) = room self
  /\ (forall fuel self', get_input fuel self = Some self' -> room self' = room self).
Proof.
  repeat split.
  - intros H. unfold route.
    destruct (functions !! command_of (input_buffer self)) as [f|] eqn:E;
      [|reflexivity].
    apply functions_known in E as [[_ ->]|[[_ ->]|[Hc _]]];
      [reflexivity|reflexivity|contradiction].
  - intros fuel self' E. exact (proj1 (get_input_frame _ _ _ E)).
Qed.

Lemma room_changes_only_in_move_witness :
  room (route (set_input_buffer "say move north" (set_room 3 (init 50000 [])))) = 3
  /\ room (route (set_input_buffer "Quit" (set_room 1 (init 50000 [])))) = 1.
Proof.
  split.
  - apply (proj1 (room_changes_only_in_move
             (set_input_buffer "say move north" (set_room 3 (init 50000 []))))).
    vm_compute. discriminate.
  - apply (proj1 (room_changes_only_in_move
             (set_input_buffer "Quit" (set_room 1 (init 50000 []))))).
    vm_compute. discriminate.
Defined.

(** ** Session loop *)

Lemma serve_loop_done (fuel : nat) (self : Server) :
  done self = true -> serve_loop fuel self = Some self.
Proof. intros H. destruct fuel; simpl; rewrite H; reflexivity. Qed.

Lemma serve_loop_step (fuel : nat) (self self1 : Server) :
  done self = false ->
  get_input fuel self = Some self1 ->
  serve_loop (S fuel) self = serve_loop fuel (push_output (route self1)).
Proof. intros Hd Hg. simpl. rewrite Hd, Hg. reflexivity. Qed.

Lemma route_quit (self : Server) :
  command_of (input_buffer self) = "quit" ->
  route self = quit (action_of (input_buffer self)) self.
Proof. intros H. unfold route. rewrite H, functions_quit. reflexivity. Qed.

(** [route] turns [done] on only by way of [quit]. *)
Lemma route_sets_done (self : Server) :
  done self = false -> done (route self) = true ->
  output_buffer (route self) = "Goodbye!".
Proof.
  intros Hd. unfold route.
  destruct (functions !! command_of (input_buffer self)) as [f|] eqn:E.
  - apply functions_known in E as [[_ ->]|[[_ ->]|[_ ->]]].
    + reflexivity.
    + simpl. congruence.
    + destruct (move_frame (action_of (input_buffer self)) self) as (r & t & ->).
      simpl. congruence.
  - simpl. congruence.
Qed.

(** A loop entered with [done] off returns only right after the goodbye
    bytes were sent. *)
Lemma serve_loop_exit (fuel : nat) :
  forall self final,
    done self = false ->
    serve_loop fuel self = Some final ->
    done final = true
    /\ exists earlier, io_log final = (earlier ++ [SendAll goodbye_bytes])%list.
Proof.
  induction fuel as [|fuel IH]; intros self final Hd; simpl; rewrite Hd;
    [discriminate|].
  destruct (get_input fuel self) as [self1|] eqn:Hg; [|discriminate].
  destruct (get_input_frame _ _ _ Hg) as [_ Hd1]. rewrite Hd in Hd1.
  destruct (done (route self1)) eqn:Hr.
  - rewrite serve_loop_done by exact Hr.
    intros E; inversion E; subst final. split; [exact Hr|].
    exists (io_log (route self1)). simpl.
    rewrite (route_sets_done self1 Hd1 Hr). reflexivity.
  - apply IH. exact Hr.
Qed.

Lemma get_input_loop_ready (fuel : nat) (msg : string) (self : Server) :
  Py.contains Py.LF msg = true -> get_input_loop fuel msg self = Some (msg, self).
Proof. intros H. destruct fuel; simpl; rewrite H; reflexivity. Qed.

(** More fuel changes no result. *)
Lemma get_input_loop_mono (fuel : nat) :
  forall msg self r fuel',
    get_input_loop fuel msg self = Some r -> (fuel <= fuel')%nat ->
    get_input_loop fuel' msg self = Some r.
Proof.
  induction fuel as [|fuel IH]; intros msg self r fuel' H Hle; simpl in H;
    destruct (Py.contains Py.LF msg) eqn:Hc; try discriminate;
    try (inversion H; subst; apply get_input_loop_ready; exact Hc).
  destruct fuel' as [|fuel']; [lia|]. simpl. rewrite Hc.
  destruct (recv 16 self) as [got self1]. apply IH; [exact H|lia].
Qed.

Lemma get_input_mono (fuel fuel' : nat) (self self' : Server) :
  get_input fuel self = Some self' -> (fuel <= fuel')%nat ->
  get_input fuel' self = Some self'.
Proof.
  unfold get_input.
  destruct (get_input_loop fuel EmptyString self) as [[msg self1]|] eqn:E;
    [|discriminate].
  intros H Hle. rewrite (get_input_loop_mono _ _ _ _ _ E Hle). exact H.
Qed.

Lemma serve_loop_mono (fuel : nat) :
  forall self final fuel',
    serve_loop fuel self = Some final -> (fuel <= fuel')%nat ->
    serve_loop fuel' self = Some final.
Proof.
  induction fuel as [|fuel IH]; intros self final fuel' H Hle; simpl in H;
    destruct (done self) eqn:Hd; try discriminate;
    try (inversion H; subst; apply serve_loop_done; exact Hd).
  destruct (get_input fuel self) as [self1|] eqn:Hg; [|discriminate].
  destruct fuel' as [|fuel']; [lia|].
  rewrite (serve_loop_step fuel' self self1 Hd);
    [|apply (get_input_mono fuel); [exact Hg|lia]].
  apply IH; [exact H|lia].
Qed.

(** What the loop returns from a state it reaches, it returns from the
    start, given the fuel. *)
Lemma serve_loop_reaches (s t : Server) :
  reaches s t ->
  forall fuel final,
    serve_loop fuel t = Some final ->
    exists fuel', forall fuel'',
        (fuel' <= fuel'')%nat -> serve_loop fuel'' s = Some final.
Proof.
  induction 1 as [s|fuel0 s s1 t Hd Hg _ IH]; intros fuel final Hf.
  - exists fuel. intros fuel'' Hle. exact (serve_loop_mono _ _ _ _ Hf Hle).
  - destruct (IH fuel final Hf) as [f1 Hf1].
    exists (S (Nat.max fuel0 f1)). intros fuel'' Hle.
    destruct fuel'' as [|k]; [lia|].
    rewrite (serve_loop_step k s s1 Hd);
      [|apply (get_input_mono fuel0); [exact Hg|lia]].
    apply Hf1. lia.
Qed.

(** C8: [quit] sets [done], leaves [Goodbye!] in the output buffer and
    touches nothing else, whatever its argument; the bytes then sent are
    [OK! Goodbye!] with the framing's space and line feed.  When the loop,
    with [done] off, reads a line whose verb is quit, it sends these bytes
    and returns, and the two closes are the only socket operations after
    them; and a [serve] started with [done] off returns in no other way.
    And [serve] does return: bound to a valid port and facing a peer that
    sends ASCII bytes, once its loop, after the welcome and any number of
    iterations, reads a line whose verb is quit, [serve] (given the fuel)
    returns with [done] set, and the last operations in its log are the send
    of the goodbye bytes, the close of the connection and the close of the
    socket. *)
Theorem quit_ends_session :
  (forall argument self,
      done (quit argument self) = true
      /\ output_buffer (quit argument self) = "Goodbye!"
      /\ quit argument self = quit EmptyString self
      /\ room (quit argument self) = room self
      /\ input_buffer (quit argument self) = input_buffer self
      /\ inbound (quit argument self) = inbound self
      /\ io_log (quit argument self) = io_log self
      /\ framed (output_buffer (quit argument self)) = goodbye_bytes
      /\ Py.startswith "OK! " (framed (output_buffer (quit argument self))) = true)
  /\ (forall fuel self self1,
         done self = false ->
         get_input fuel self = Some self1 ->
         command_of (input_buffer self1) = "quit" ->
         exists final,
           serve_loop (S fuel) self = Some final
           /\ done final = true
           /\ io_log final = (io_log self1 ++ [SendAll goodbye_bytes])%list
           /\ io_log (close_all final)
              = (io_log self1
                 ++ [SendAll goodbye_bytes; CloseConnection; CloseSocket])%list)
  /\ (forall fuel self final,
         done self = false ->
         serve fuel self = Some final ->
         done final = true
         /\ exists earlier,
              io_log final
              = (earlier
                 ++ [SendAll goodbye_bytes; CloseConnection; CloseSocket])%list)
  /\ (forall self mid fuel self1,
         valid_port (port self) ->
         ascii_inbound self ->
         reaches (push_output (greet (connect self))) mid ->
         done mid = false ->
         get_input fuel mid = Some self1 ->
         command_of (input_buffer self1) = "quit" ->
         exists fuel' final,
           (forall fuel'', (fuel' <= fuel'')%nat -> serve fuel'' self = Some final)
           /\ done final = true
           /\ io_log final
              = (io_log self1
                 ++ [SendAll goodbye_bytes; CloseConnection; CloseSocket])%list).
Proof.
  split; [|split; [|split]].
  - intros argument self. repeat split; reflexivity.
  - intros fuel self self1 Hd Hg Hq.
    exists (push_output (route self1)).
    rewrite (serve_loop_step _ _ _ Hd Hg), (route_quit _ Hq).
    rewrite serve_loop_done by reflexivity.
    repeat split; try reflexivity.
    simpl. rewrite <- !List.app_assoc. reflexivity.
  - intros fuel self final Hd. unfold serve.
    destruct (serve_loop fuel (push_output (greet (connect self))))
      as [last|] eqn:E; [|discriminate].
    intros E'; inversion E'; subst final.
    apply serve_loop_exit in E as [Hdone [earlier Hlog]]; [|exact Hd].
    split; [exact Hdone|].
    exists earlier. simpl. rewrite Hlog, <- !List.app_assoc. reflexivity.
  - intros self mid fuel self1 _ _ Hreach Hd Hg Hq.
    assert (Hlast : serve_loop (S fuel) mid
                    = Some (push_output
                              (quit (action_of (input_buffer self1)) self1))).
    { rewrite (serve_loop_step _ _ _ Hd Hg), (route_quit _ Hq).
      apply serve_loop_done. reflexivity. }
    destruct (serve_loop_reaches _ _ Hreach _ _ Hlast) as [fuel' Hfuel'].
    exists fuel',
      (close_all (push_output (quit (action_of (input_buffer self1)) self1))).
    split; [|split].
    + intros fuel'' Hle. unfold serve. rewrite (Hfuel' fuel'' Hle). reflexivity.
    + reflexivity.
    + simpl. rewrite <- !List.app_assoc. reflexivity.
Qed.

Lemma quit_ends_session_witness :
  (exists final,
      serve_loop 3 (init 50000 ["QUIT no"; "w" ++ Py.nl]) = Some final
      /\ done final = true
      /\ io_log final
         = [Recv "QUIT no"; Recv ("w" ++ Py.nl); SendAll goodbye_bytes]
      /\ io_log (close_all final)
         = [Recv "QUIT no"; Recv ("w" ++ Py.nl); SendAll goodbye_bytes;
            CloseConnection; CloseSocket])
  /\ (let self := init 50000 ["QUIT now" ++ Py.nl; "move north" ++ Py.nl] in
      let self1 :=
        set_input_buffer "QUIT now"
          (logged (Recv ("QUIT now" ++ Py.nl))
             (set_inbound ["move north" ++ Py.nl]
                (push_output (greet (connect self))))) in
      exists fuel' final,
        (forall fuel'', (fuel' <= fuel'')%nat -> serve fuel'' self = Some final)
        /\ done final = true
        /\ io_log final
           = (io_log self1
              ++ [SendAll goodbye_bytes; CloseConnection; CloseSocket])%list).
Proof.
  split.
  - apply (proj1 (proj2 quit_ends_session) 2%nat
             (init 50000 ["QUIT no"; "w" ++ Py.nl])
             (mkServer "QUIT now" EmptyString false 50000 0 []
                       [Recv "QUIT no"; Recv ("w" ++ Py.nl)])).
    + reflexivity.
    + reflexivity.
    + reflexivity.
  - cbv zeta.
    refine (proj2 (proj2 (proj2 quit_ends_session))
              (init 50000 ["QUIT now" ++ Py.nl; "move north" ++ Py.nl])
              (push_output
                 (greet (connect
                           (init 50000 ["QUIT now" ++ Py.nl;
                                        "move north" ++ Py.nl]))))
              1%nat
              (set_input_buffer "QUIT now"
                 (logged (Recv ("QUIT now" ++ Py.nl))
                    (set_inbound ["move north" ++ Py.nl]
                       (push_output
                          (greet (connect
                                    (init 50000 ["QUIT now" ++ Py.nl;
                                                 "move north" ++ Py.nl])))))))
              _ _ (reaches_here _) _ _ _).
    + unfold valid_port. simpl. lia.
    + unfold ascii_inbound. simpl.
      constructor; [reflexivity|constructor; [reflexivity|constructor]].
    + reflexivity.
    + vm_compute. reflexivity.
    + vm_compute. reflexivity.
Defined.

(** A whole session: greeting, one move, quit. *)
Example serve_move_quit :
  option_map io_log
    (serve 4 (init 50000 ["move north" ++ Py.nl; "quit" ++ Py.nl]))
  = Some [Bind 50000; Listen 1; Accept;
          SendAll ("OK! Welcome to " ++ game_name ++ "! "
                   ++ Py.format_value (rooms !! 0) ++ " " ++ Py.nl);
          Recv ("move north" ++ Py.nl);
          SendAll ("OK! " ++ Py.format_value (rooms !! 3) ++ " " ++ Py.nl);
          Recv ("quit" ++ Py.nl);
          SendAll goodbye_bytes; CloseConnection; CloseSocket].
Proof. vm_compute. reflexivity. Qed.

(** ** The peer closes before a line feed *)

Lemma append_empty (s : string) : s ++ EmptyString = s.
Proof.
  induction s as [|c s IH]; [reflexivity|].
  change (String c (s ++ EmptyString) = String c s). f_equal. exact IH.
Qed.

Lemma recv_starved (bufsize : nat) (self : Server) :
  starved self ->
  Py.contains Py.LF (fst (recv bufsize self)) = false
  /\ starved (snd (recv bufsize self)).
Proof.
  unfold starved, recv. intros H.
  destruct (inbound self) as [|chunk later] eqn:E; [split; [reflexivity|]|].
  - simpl. rewrite E. constructor.
  - inversion H as [|? ? Hc Hl]; subst.
    destruct (take_bytes_contains Py.LF bufsize chunk Hc) as [H1 H2].
    destruct (Py.take_bytes bufsize chunk) as [got kept]. simpl in *.
    split; [exact H1|].
    destruct kept; [exact Hl|]. constructor; assumption.
Qed.

Lemma get_input_loop_starved (fuel : nat) :
  forall msg self,
    Py.contains Py.LF msg = false -> starved self ->
    get_input_loop fuel msg self = None.
Proof.
  induction fuel as [|fuel IH]; intros msg self Hm Hs; simpl; rewrite Hm;
    [reflexivity|].
  destruct (recv_starved 16 self Hs) as [Hg Hs'].
  destruct (recv 16 self) as [got self']. simpl in *.
  apply IH; [|exact Hs'].
  rewrite contains_app, Hm, Hg. reflexivity.
Qed.

Lemma get_input_starved (fuel : nat) (self : Server) :
  starved self -> get_input fuel self = None.
Proof.
  intros H. unfold get_input.
  rewrite get_input_loop_starved; [reflexivity|reflexivity|exact H].
Qed.

Lemma serve_loop_starved (fuel : nat) (self : Server) :
  done self = false -> starved self -> serve_loop fuel self = None.
Proof.
  intros Hd Hs. destruct fuel as [|fuel]; simpl; rewrite Hd; [reflexivity|].
  rewrite get_input_starved by exact Hs. reflexivity.
Qed.

Lemma serve_starved (fuel : nat) (self : Server) :
  done self = false -> starved self -> serve fuel self = None.
Proof.
  intros Hd Hs. unfold serve.
  rewrite serve_loop_starved; [reflexivity|exact Hd|exact Hs].
Qed.

(** C9, as the code has it, for an orderly close: once the peer has nothing
    left to deliver that holds a line feed and has closed its end in an
    orderly way, so that a read returns the empty byte string,
    [get_input] returns for no amount of fuel: a read that yields no bytes
    is followed by the next read, with the message read so far unchanged.
    Then neither the loop of [serve] nor [serve] (bound to a valid port)
    returns, so neither close is reached.  A connection that is reset,
    where the read raises, is not covered. *)
Theorem peer_closed_read_never_returns (fuel : nat) (self : Server) :
  starved self ->
  get_input fuel self = None
  /\ (done self = false -> serve_loop fuel self = None)
  /\ (done self = false -> valid_port (port self) -> serve fuel self = None)
  /\ (forall msg,
         inbound self = [] -> Py.contains Py.LF msg = false ->
         recv 16 self = (EmptyString, logged (Recv EmptyString) self)
         /\ get_input_loop (S fuel) msg self
            = get_input_loop fuel msg (logged (Recv EmptyString) self)).
Proof.
  intros Hs. split; [|split; [|split]].
  - exact (get_input_starved fuel self Hs).
  - intros Hd. exact (serve_loop_starved fuel self Hd Hs).
  - intros Hd _. exact (serve_starved fuel self Hd Hs).
  - intros msg Hin Hm. split.
    + unfold recv. rewrite Hin. reflexivity.
    + simpl. rewrite Hm. unfold recv. rewrite Hin, append_empty. reflexivity.
Qed.

Lemma peer_closed_read_never_returns_witness :
  get_input 1000 (set_inbound ["mov"] (init 50000 [])) = None
  /\ (done (set_inbound ["mov"] (init 50000 [])) = false ->
      serve_loop 1000 (set_inbound ["mov"] (init 50000 [])) = None)
  /\ serve 1000 (set_inbound ["mov"] (init 50000 [])) = None.
Proof.
  assert (Hs : starved (set_inbound ["mov"] (init 50000 []))).
  { unfold starved. simpl. constructor; [reflexivity|constructor]. }
  assert (Hp : valid_port (port (set_inbound ["mov"] (init 50000 []))))
    by (unfold valid_port; simpl; lia).
  split; [|split].
  - exact (proj1 (peer_closed_read_never_returns 1000 _ Hs)).
  - exact (proj1 (proj2 (peer_closed_read_never_returns 1000 _ Hs))).
  - exact (proj1 (proj2 (proj2 (peer_closed_read_never_returns 1000 _ Hs)))
             eq_refl Hp).
Defined.

(** C9, counterexample: the peer sends [mov] and closes its end in an orderly
    way.  For no amount of fuel does [serve] come back, be it with the
    sockets closed or with an error. *)
Lemma peer_closed_mid_line_counterexample :
  ~ exists fuel final, serve fuel (init 50000 ["mov"]) = Some final.
Proof.
  intros (fuel & final & E).
  rewrite serve_starved in E; [discriminate|reflexivity|].
  unfold starved. simpl. constructor; [reflexivity|constructor].
Qed.

(** * Further properties of the code *)

(** ** Room map *)

(** No two of the four rooms share a description. *)
Theorem room_descriptions_distinct (a b : Z) :
  In a valid_rooms -> In b valid_rooms -> a <> b ->
  room_description a <> room_description b.
Proof.
  unfold valid_rooms. simpl.
  intros [<-|[<-|[<-|[<-|[]]]]] [<-|[<-|[<-|[<-|[]]]]] Hne;
    try (exfalso; apply Hne; reflexivity);
    intros E; vm_compute in E; discriminate E.
Qed.

Lemma room_descriptions_distinct_witness :
  room_description 1 <> room_description 2.
Proof.
  apply (room_descriptions_distinct 1 2); simpl; try tauto. lia.
Defined.

(** ** Navigation *)

Lemma move_on_table (argument : string) (self : Server) (destination : Z) :
  In (room self, Py.lower argument, destination) MoveTable ->
  exists text,
    room_description destination = Some text
    /\ In destination valid_rooms
    /\ Py.startswith "Bad!" text = false
    /\ move argument self = set_output_buffer text (set_room destination self).
Proof.
  unfold MoveTable. simpl In.
  intros [E|[E|[E|[E|[E|[E|[]]]]]]]; inversion E as [[Hr Ha]]; subst destination;
    (eexists; split; [reflexivity|]);
    (split; [unfold valid_rooms; simpl; tauto|]);
    (split; [reflexivity|]);
    unfold move; rewrite <- Ha, <- Hr; reflexivity.
Qed.

(** The two ways [move] can go. *)
Lemma move_cases (argument : string) (self : Server) :
  (exists destination text,
      In (room self, Py.lower argument, destination) MoveTable
      /\ room_description destination = Some text
      /\ In destination valid_rooms
      /\ Py.startswith "Bad!" text = false
      /\ move argument self = set_output_buffer text (set_room destination self))
  \/ ((forall destination,
          ~ In (room self, Py.lower argument, destination) MoveTable)
      /\ move argument self = set_output_buffer cannot_move self).
Proof.
  set (here := fun e : Z * string * Z =>
                 ((fst (fst e) =? room self)
                  && (snd (fst e) =? Py.lower argument)%string)%bool).
  destruct (existsb here MoveTable) eqn:E.
  - left. apply existsb_exists in E as ([[r d] destination] & Hin & Hb).
    unfold here in Hb. simpl in Hb. apply andb_true_iff in Hb as [Hr Hd].
    apply Z.eqb_eq in Hr. apply String.eqb_eq in Hd. subst r d.
    destruct (move_on_table _ _ _ Hin) as (text & H1 & H2 & H3 & H4).
    exists destination, text. auto.
  - right.
    assert (Hoff : forall destination,
               ~ In (room self, Py.lower argument, destination) MoveTable).
    { intros destination Hin.
      assert (existsb here MoveTable = true) as E'; [|congruence].
      apply existsb_exists. exists (room self, Py.lower argument, destination).
      split; [exact Hin|]. unfold here. simpl.
      now rewrite Z.eqb_refl, String.eqb_refl. }
    split; [exact Hoff|]. apply move_off_table. exact Hoff.
Qed.

Lemma MoveTable_back (r destination : Z) (d : string) :
  In (r, d, destination) MoveTable ->
  exists back, In (destination, Py.lower back, r) MoveTable.
Proof.
  unfold MoveTable. simpl.
  intros [E|[E|[E|[E|[E|[E|[]]]]]]]; inversion E; subst.
  - exists "south". simpl. tauto.
  - exists "north". simpl. tauto.
  - exists "west". simpl. tauto.
  - exists "east". simpl. tauto.
  - exists "east". simpl. tauto.
  - exists "west". simpl. tauto.
Qed.

(** A move that changed the room can be taken back by one move: some
    argument brings [self.room] back to where it was. *)
Theorem move_can_be_undone (argument : string) (self : Server) :
  room (move argument self) <> room self ->
  exists back, room (move back (move argument self)) = room self.
Proof.
  intros Hne.
  destruct (move_cases argument self)
    as [(destination & text & Hin & _ & _ & _ & Hm)|[_ Hm]].
  - destruct (MoveTable_back _ _ _ Hin) as [back Hback].
    exists back. rewrite Hm.
    destruct (move_on_table back
                (set_output_buffer text (set_room destination self))
                (room self) Hback) as (text' & _ & _ & _ & Hm').
    rewrite Hm'. reflexivity.
  - exfalso. apply Hne. rewrite Hm. reflexivity.
Qed.

Lemma move_can_be_undone_witness :
  exists back,
    room (move back (move "west" (init 50000 []))) = room (init 50000 []).
Proof.
  apply (move_can_be_undone "west" (init 50000 [])).
  vm_compute. discriminate.
Defined.

(** A move that changes the room starts or ends in room 0, and ends in one
    of the four rooms. *)
Theorem move_passes_room_0 (argument : string) (self : Server) :
  room (move argument self) <> room self ->
  (room self = 0 \/ room (move argument self) = 0)
  /\ In (room self) valid_rooms
  /\ In (room (move argument self)) valid_rooms.
Proof.
  intros Hne.
  destruct (move_cases argument self)
    as [(destination & text & Hin & _ & Hv & _ & Hm)|[_ Hm]].
  - rewrite Hm. simpl room.
    unfold MoveTable, valid_rooms in *. simpl in Hin |- *.
    destruct Hin as [E|[E|[E|[E|[E|[E|[]]]]]]]; injection E as Hr Ha Hd;
      rewrite <- Hr, <- Hd; tauto.
  - exfalso. apply Hne. rewrite Hm. reflexivity.
Qed.

Lemma move_passes_room_0_witness :
  (room (set_room 1 (init 50000 [])) = 0
   \/ room (move "WEST" (set_room 1 (init 50000 []))) = 0)
  /\ In (room (set_room 1 (init 50000 []))) valid_rooms
  /\ In (room (move "WEST" (set_room 1 (init 50000 [])))) valid_rooms.
Proof.
  apply (move_passes_room_0 "WEST" (set_room 1 (init 50000 []))).
  vm_compute. discriminate.
Defined.

Lemma move_keeps_on_map (argument : string) (self : Server) :
  In (room self) valid_rooms -> In (room (move argument self)) valid_rooms.
Proof.
  intros H.
  destruct (move_cases argument self)
    as [(destination & text & _ & _ & Hv & _ & Hm)|[_ Hm]];
    rewrite Hm; simpl; assumption.
Qed.

Lemma route_keeps_on_map (self : Server) :
  In (room self) valid_rooms -> In (room (route self)) valid_rooms.
Proof.
  intros H. unfold route.
  destruct (functions !! command_of (input_buffer self)) as [f|] eqn:E;
    [|exact H].
  apply functions_known in E as [[_ ->]|[[_ ->]|[_ ->]]];
    [exact H|exact H|apply move_keeps_on_map; exact H].
Qed.

Lemma serve_loop_keeps_on_map (fuel : nat) :
  forall self final,
    In (room self) valid_rooms ->
    serve_loop fuel self = Some final ->
    In (room final) valid_rooms.
Proof.
  induction fuel as [|fuel IH]; intros self final Hv; simpl;
    destruct (done self); try discriminate;
    try (intros E; inversion E; subst; exact Hv).
  destruct (get_input fuel self) as [self1|] eqn:Hg; [|discriminate].
  apply IH. simpl. apply route_keeps_on_map.
  destruct (get_input_frame _ _ _ Hg) as [Hr _]. now rewrite Hr.
Qed.

(** The room stays on the map: from one of the four rooms, [move] and
    [route] lead to one of the four rooms, and so does the loop of [serve]
    and [serve] itself, whatever the client sends; the description of the
    room reached is then always found. *)
Theorem room_stays_on_map (self : Server) :
  In (room self) valid_rooms ->
  (forall argument, In (room (move argument self)) valid_rooms)
  /\ In (room (route self)) valid_rooms
  /\ (forall fuel final,
         serve_loop fuel self = Some final -> In (room final) valid_rooms)
  /\ (forall fuel final,
         serve fuel self = Some final ->
         In (room final) valid_rooms
         /\ exists text, room_description (room final) = Some text).
Proof.
  intros H. split; [|split; [|split]].
  - intros argument. apply move_keeps_on_map. exact H.
  - apply route_keeps_on_map. exact H.
  - intros fuel final. apply serve_loop_keeps_on_map. exact H.
  - intros fuel final. unfold serve.
    destruct (serve_loop fuel (push_output (greet (connect self))))
      as [last|] eqn:E; [|discriminate].
    intros E'; inversion E'; subst final.
    apply serve_loop_keeps_on_map in E; [|exact H].
    split; [exact E|].
    destruct (rooms_inside _ E) as (text & Ht & _). exists text. exact Ht.
Qed.

Lemma room_stays_on_map_witness :
  In (room (move "sideways" (set_room 2 (init 50000 [])))) valid_rooms
  /\ In (room (route (set_input_buffer "move east" (set_room 2 (init 50000 [])))))
        valid_rooms.
Proof.
  assert (H : In (room (set_room 2 (init 50000 []))) valid_rooms)
    by (simpl; tauto).
  split.
  - exact (proj1 (room_stays_on_map _ H) "sideways").
  - exact (proj1 (proj2 (room_stays_on_map
                           (set_input_buffer "move east" (set_room 2 (init 50000 [])))
                           H))).
Defined.

(** ** Command router *)

Lemma route_frame (self : Server) :
  io_log (route self) = io_log self
  /\ inbound (route self) = inbound self
  /\ input_buffer (route self) = input_buffer self
  /\ port (route self) = port self.
Proof.
  unfold route.
  destruct (functions !! command_of (input_buffer self)) as [f|] eqn:E;
    [|repeat split; reflexivity].
  apply functions_known in E as [[_ ->]|[[_ ->]|[_ ->]]];
    try (repeat split; reflexivity).
  destruct (move_frame (action_of (input_buffer self)) self) as (r & t & ->).
  repeat split; reflexivity.
Qed.

(** [route] does no socket operation and keeps the line it routed: the log,
    the pending chunks, the input buffer and the port are as before. *)
Theorem route_does_no_io (self : Server) :
  io_log (route self) = io_log self
  /\ inbound (route self) = inbound self
  /\ input_buffer (route self) = input_buffer self
  /\ port (route self) = port self.
Proof. exact (route_frame self). Qed.

Lemma route_done (self : Server) :
  done (route self)
  = (done self || (command_of (input_buffer self) =? "quit")%string)%bool.
Proof.
  unfold route.
  destruct (functions !! command_of (input_buffer self)) as [f|] eqn:E.
  - apply functions_known in E as [[-> ->]|[[-> ->]|[-> ->]]].
    + simpl. now rewrite orb_true_r.
    + simpl. now rewrite orb_false_r.
    + destruct (move_frame (action_of (input_buffer self)) self) as (r & t & ->).
      simpl. now rewrite orb_false_r.
  - destruct (String.eqb_spec (command_of (input_buffer self)) "quit") as [Hq|_].
    + rewrite Hq, functions_quit in E. discriminate.
    + simpl. now rewrite orb_false_r.
Qed.

(** [done] after [route] is [done] before, or the verb of the line is quit
    in any mix of cases: no line turns [done] off and only quit turns it
    on. *)
Theorem route_done_iff_quit (self : Server) :
  done (route self)
  = (done self || (command_of (input_buffer self) =? "quit")%string)%bool.
Proof. exact (route_done self). Qed.

(** Only the two rejection texts go out without the [OK!] prefix: whatever
    the line and the state, the body [route] leaves is the rejected-move
    text, the unknown-verb text, or it is sent as [OK!], a space, the body, a
    space and the line feed.  No argument of [say] changes that. *)
Theorem only_rejections_lack_ok (self : Server) :
  output_buffer (route self) = cannot_move
  \/ output_buffer (route self) = unknown_command
  \/ framed (output_buffer (route self))
     = "OK! " ++ output_buffer (route self) ++ " " ++ Py.nl.
Proof.
  unfold route.
  destruct (functions !! command_of (input_buffer self)) as [f|] eqn:E;
    [|right; left; reflexivity].
  apply functions_known in E as [[_ ->]|[[_ ->]|[_ ->]]].
  - right; right. reflexivity.
  - right; right. reflexivity.
  - destruct (move_cases (action_of (input_buffer self)) self)
      as [(destination & text & _ & _ & _ & Hok & Hm)|[_ Hm]]; rewrite Hm.
    + right; right. simpl output_buffer. rewrite framed_shape, Hok. reflexivity.
    + left. reflexivity.
Qed.

(** ** Letter case *)

Lemma lower_char_idempotent (c : ascii) :
  Py.lower_char (Py.lower_char c) = Py.lower_char c.
Proof. destruct c as [[] [] [] [] [] [] [] []]; reflexivity. Qed.

Lemma lower_idempotent (s : string) : Py.lower (Py.lower s) = Py.lower s.
Proof.
  induction s as [|c s IH]; simpl; [reflexivity|].
  now rewrite lower_char_idempotent, IH.
Qed.

Lemma lower_char_space (c : ascii) :
  Ascii.eqb (Py.lower_char c) Py.SPACE = Ascii.eqb c Py.SPACE.
Proof. destruct c as [[] [] [] [] [] [] [] []]; reflexivity. Qed.

Lemma lower_contains_space (s : string) :
  Py.contains Py.SPACE (Py.lower s) = Py.contains Py.SPACE s.
Proof.
  induction s as [|c s IH]; simpl; [reflexivity|].
  now rewrite lower_char_space, IH.
Qed.

(** [route] looks at the verb, the argument, the room and [done] only. *)
Lemma route_same (a b : Server) :
  command_of (input_buffer a) = command_of (input_buffer b) ->
  action_of (input_buffer a) = action_of (input_buffer b) ->
  room a = room b -> done a = done b ->
  output_buffer (route a) = output_buffer (route b)
  /\ room (route a) = room (route b)
  /\ done (route a) = done (route b).
Proof.
  intros Hc Ha Hr Hd. unfold route. rewrite Hc, Ha.
  destruct (functions !! command_of (input_buffer b)) as [f|] eqn:E;
    [|repeat split; assumption].
  apply functions_known in E as [[_ ->]|[[_ ->]|[_ ->]]];
    try (repeat split; assumption).
  destruct (move_cases (action_of (input_buffer b)) a)
    as [(d & t & Hin & Ht & _ & _ & Hm)|[Hoff Hm]]; rewrite Hm.
  - rewrite Hr in Hin.
    destruct (move_on_table _ b d Hin) as (t' & Ht' & _ & _ & Hm').
    rewrite Hm'. simpl. repeat split; congruence.
  - rewrite Hr in Hoff. rewrite (move_off_table _ b Hoff).
    simpl. repeat split; assumption.
Qed.

(** Letter case does not matter where the code lower-cases: [move] does the
    same on an argument and on its lower-cased form, and a line whose verb is
    written in another mix of cases, be it followed by a space and an
    argument or alone on the line, is routed to the same handler with the
    same argument, so that room, [done] and the output buffer come out the
    same. *)
Theorem case_is_ignored (verb argument : string) (self : Server) :
  Py.contains Py.SPACE verb = false ->
  move argument self = move (Py.lower argument) self
  /\ (let mixed := route (set_input_buffer (verb ++ " " ++ argument) self) in
      let plain :=
        route (set_input_buffer (Py.lower verb ++ " " ++ argument) self) in
      output_buffer mixed = output_buffer plain
      /\ room mixed = room plain
      /\ done mixed = done plain)
  /\ (let mixed := route (set_input_buffer verb self) in
      let plain := route (set_input_buffer (Py.lower verb) self) in
      output_buffer mixed = output_buffer plain
      /\ room mixed = room plain
      /\ done mixed = done plain).
Proof.
  intros H.
  assert (H' : Py.contains Py.SPACE (Py.lower verb) = false)
    by (now rewrite lower_contains_space).
  split; [|split].
  - unfold move. rewrite lower_idempotent. reflexivity.
  - destruct (command_action_at_first_space verb argument H) as [Hc Ha].
    destruct (command_action_at_first_space (Py.lower verb) argument H')
      as [Hc' Ha'].
    rewrite lower_idempotent in Hc'.
    cbv zeta. apply route_same; simpl; congruence.
  - destruct (command_action_without_space verb H) as [Hc Ha].
    destruct (command_action_without_space (Py.lower verb) H') as [Hc' Ha'].
    rewrite lower_idempotent in Hc'.
    cbv zeta. apply route_same; simpl; congruence.
Qed.

Lemma case_is_ignored_witness :
  move "NORTH" (init 50000 []) = move (Py.lower "NORTH") (init 50000 [])
  /\ room (route (set_input_buffer ("MoVe" ++ " " ++ "West") (init 50000 [])))
     = room (route (set_input_buffer (Py.lower "MoVe" ++ " " ++ "West") (init 50000 [])))
  /\ done (route (set_input_buffer "QUIT" (init 50000 [])))
     = done (route (set_input_buffer (Py.lower "QUIT") (init 50000 []))).
Proof.
  split; [|split].
  - exact (proj1 (case_is_ignored "MoVe" "NORTH" (init 50000 []) eq_refl)).
  - exact (proj1 (proj2 (proj1 (proj2 (case_is_ignored "MoVe" "West"
                                         (init 50000 []) eq_refl))))).
  - exact (proj2 (proj2 (proj2 (proj2 (case_is_ignored "QUIT" EmptyString
                                         (init 50000 []) eq_refl))))).
Defined.

(** A line that is a verb alone reaches the handler with the empty
    argument: move is rejected in every state, say answers an empty
    quotation, quit ends the session. *)
Theorem verb_without_argument (self : Server) :
  Py.contains Py.SPACE (input_buffer self) = false ->
  (Py.lower (input_buffer self) = "move" ->
   route self = set_output_buffer cannot_move self)
  /\ (Py.lower (input_buffer self) = "say" ->
      route self = set_output_buffer ("You say, " ++ Py.dquote ++ Py.dquote) self)
  /\ (Py.lower (input_buffer self) = "quit" ->
      route self = set_output_buffer "Goodbye!" (set_done true self)).
Proof.
  intros H.
  destruct (command_action_without_space _ H) as [Hc Ha].
  unfold route. rewrite Hc, Ha.
  split; [|split]; intros ->.
  - rewrite functions_move. apply move_off_table.
    intros destination. unfold MoveTable. simpl.
    intros [E|[E|[E|[E|[E|[E|[]]]]]]]; discriminate E.
  - rewrite functions_say. reflexivity.
  - rewrite functions_quit. reflexivity.
Qed.

Lemma verb_without_argument_witness :
  route (set_input_buffer "Move" (set_room 3 (init 50000 [])))
  = set_output_buffer cannot_move
      (set_input_buffer "Move" (set_room 3 (init 50000 []))).
Proof.
  apply (verb_without_argument
           (set_input_buffer "Move" (set_room 3 (init 50000 [])))).
  - reflexivity.
  - reflexivity.
Defined.

(** ** Reading a line *)

Lemma string_app_assoc (a b c : string) : (a ++ b) ++ c = a ++ b ++ c.
Proof.
  induction a as [|x a IH]; [reflexivity|].
  change (String x ((a ++ b) ++ c) = String x (a ++ b ++ c)).
  f_equal. exact IH.
Qed.

Lemma take_bytes_fits (n : nat) (s : string) :
  (String.length s <= n)%nat -> Py.take_bytes n s = (s, EmptyString).
Proof.
  revert s. induction n as [|n IH]; intros [|c s] H; simpl in *;
    try reflexivity; try lia.
  rewrite IH by lia. reflexivity.
Qed.

Lemma recv_fits (self : Server) (chunk : string) (later : list string) :
  inbound self = chunk :: later -> fits chunk ->
  recv 16 self = (chunk, logged (Recv chunk) (set_inbound later self)).
Proof.
  intros Hin Hf. unfold recv. rewrite Hin, (take_bytes_fits _ _ Hf).
  reflexivity.
Qed.

Lemma get_input_loop_reads (pre : list string) :
  forall msg self fuel last later,
    Py.contains Py.LF msg = false ->
    Forall (fun c => fits c /\ Py.contains Py.LF c = false) pre ->
    fits last -> Py.contains Py.LF last = true ->
    inbound self = (pre ++ last :: later)%list ->
    (length pre < fuel)%nat ->
    get_input_loop fuel msg self
    = Some (msg ++ glue (pre ++ [last]),
            mkServer (input_buffer self) (output_buffer self) (done self)
                     (port self) (room self) later
                     (io_log self ++ map Recv (pre ++ [last]))).
Proof.
  induction pre as [|c pre IH]; intros msg self fuel last later Hm Hpre Hf Hl Hin Hfuel;
    (destruct fuel as [|fuel]; [simpl in Hfuel; lia|]); simpl get_input_loop;
    rewrite Hm.
  - simpl in Hin. rewrite (recv_fits _ _ _ Hin Hf).
    rewrite get_input_loop_ready
      by (rewrite contains_app, Hl; apply orb_true_r).
    simpl. rewrite append_empty. reflexivity.
  - inversion Hpre as [|? ? [Hfc Hnc] Hpre']; subst.
    simpl in Hin. rewrite (recv_fits _ _ _ Hin Hfc).
    rewrite (IH (msg ++ c) _ fuel last later); try assumption.
    + simpl. rewrite string_app_assoc, <- List.app_assoc. reflexivity.
    + rewrite contains_app, Hm, Hnc. reflexivity.
    + reflexivity.
    + simpl in Hfuel. lia.
Qed.

(** [get_input] assembles a line from the chunks it arrives in.  When the
    peer delivers chunks of ASCII bytes, at most 16 bytes each, without a
    line feed and then such a chunk with one, [get_input] (with fuel for
    every chunk) returns:
    it has read exactly these chunks, in order, the input buffer is their
    bytes stripped, bytes after the line feed included, the chunks behind
    them are still pending and nothing else has changed. *)
Theorem get_input_reads_line
  (pre : list string) (last : string) (later : list string)
  (fuel : nat) (self : Server) :
  Py.isascii (glue (pre ++ [last])) = true ->
  Forall (fun c => fits c /\ Py.contains Py.LF c = false) pre ->
  fits last -> Py.contains Py.LF last = true ->
  inbound self = (pre ++ last :: later)%list ->
  (length pre < fuel)%nat ->
  get_input fuel self
  = Some (mkServer (Py.strip (glue (pre ++ [last]))) (output_buffer self)
                   (done self) (port self) (room self) later
                   (io_log self ++ map Recv (pre ++ [last]))).
Proof.
  intros _ Hpre Hf Hl Hin Hfuel. unfold get_input.
  rewrite (get_input_loop_reads pre EmptyString self fuel last later);
    try assumption; reflexivity.
Qed.

Lemma get_input_reads_line_witness :
  get_input 3 (init 50000 ["  say he"; "llo "; String Py.LF "quit"; "more"])
  = Some (mkServer ("say hello " ++ Py.nl ++ "quit") EmptyString false 50000 0
                   ["more"]
                   [Recv "  say he"; Recv "llo "; Recv (String Py.LF "quit")]).
Proof.
  apply (get_input_reads_line ["  say he"; "llo "] (String Py.LF "quit") ["more"]
           3 (init 50000 ["  say he"; "llo "; String Py.LF "quit"; "more"])).
  - reflexivity.
  - repeat constructor; unfold fits; simpl; lia.
  - unfold fits. simpl. lia.
  - reflexivity.
  - reflexivity.
  - simpl. lia.
Defined.

Lemma lstrip_head (s : string) :
  Py.lstrip s = EmptyString
  \/ exists c t, Py.lstrip s = String c t /\ Py.isspace c = false.
Proof.
  induction s as [|c s IH]; simpl; [left; reflexivity|].
  destruct (Py.isspace c) eqn:E; [exact IH|].
  right. exists c, s. auto.
Qed.

Lemma rstrip_head (c : ascii) (t : string) :
  Py.isspace c = false -> exists t', Py.rstrip (String c t) = String c t'.
Proof.
  intros H. simpl. destruct (Py.rstrip t); rewrite ?H; eauto.
Qed.

Lemma rstrip_idempotent (s : string) : Py.rstrip (Py.rstrip s) = Py.rstrip s.
Proof.
  induction s as [|c s IH]; [reflexivity|].
  simpl. destruct (Py.rstrip s) as [|d r] eqn:E.
  - destruct (Py.isspace c) eqn:Hc; [reflexivity|].
    simpl. rewrite Hc. reflexivity.
  - change (Py.rstrip (String c (String d r)))
      with (match Py.rstrip (String d r) with
            | EmptyString =>
                if Py.isspace c then EmptyString else String c EmptyString
            | r' => String c r'
            end).
    rewrite IH. reflexivity.
Qed.

Lemma strip_head (s : string) :
  Py.strip s = EmptyString
  \/ exists c t, Py.strip s = String c t /\ Py.isspace c = false.
Proof.
  unfold Py.strip.
  destruct (lstrip_head s) as [->|(c & t & -> & Hc)]; [left; reflexivity|].
  right. destruct (rstrip_head c t Hc) as [t' ->]. exists c, t'. auto.
Qed.

Lemma strip_idempotent (s : string) : Py.strip (Py.strip s) = Py.strip s.
Proof.
  destruct (strip_head s) as [E|(c & t & E & Hc)].
  - rewrite E. reflexivity.
  - unfold Py.strip at 1. rewrite E. simpl Py.lstrip. rewrite Hc.
    rewrite <- E. unfold Py.strip. apply rstrip_idempotent.
Qed.

Lemma lower_empty (s : string) : Py.lower s = EmptyString -> s = EmptyString.
Proof. destruct s; [reflexivity|discriminate]. Qed.

(** The line [get_input] leaves in the input buffer is stripped: stripping
    it again changes nothing, so it neither starts nor ends with whitespace;
    and its verb is empty only when the whole line is empty. *)
Theorem get_input_line_is_stripped (fuel : nat) (self self' : Server) :
  get_input fuel self = Some self' ->
  Py.strip (input_buffer self') = input_buffer self'
  /\ (input_buffer self' = EmptyString
      \/ exists c t, input_buffer self' = String c t /\ Py.isspace c = false)
  /\ (command_of (input_buffer self') = EmptyString ->
      input_buffer self' = EmptyString).
Proof.
  unfold get_input.
  destruct (get_input_loop fuel EmptyString self) as [[msg self1]|];
    [|discriminate].
  intros E; inversion E; subst self'. simpl input_buffer. unfold Py.decode.
  split; [apply strip_idempotent|]. split; [apply strip_head|].
  destruct (strip_head msg) as [->|(c & t & -> & Hc)]; [reflexivity|].
  unfold command_of. simpl Py.split.
  destruct (Ascii.eqb_spec c Py.SPACE) as [->|_]; [discriminate Hc|].
  intros Hl. apply lower_empty in Hl.
  destruct (Py.split Py.SPACE t); discriminate Hl.
Qed.

Lemma get_input_line_is_stripped_witness :
  Py.strip ("look  around") = "look  around".
Proof.
  apply (get_input_line_is_stripped 2
           (init 50000 [" look  aro"; "und " ++ Py.nl])
           (mkServer "look  around" EmptyString false 50000 0 []
                     [Recv " look  aro"; Recv ("und " ++ Py.nl)])).
  reflexivity.
Defined.

(** ** Shape of a session *)

Lemma recv_log (bufsize : nat) (self : Server) :
  exists chunk,
    io_log (snd (recv bufsize self)) = (io_log self ++ [Recv chunk])%list.
Proof.
  unfold recv. destruct (inbound self) as [|chunk later].
  - exists EmptyString. reflexivity.
  - destruct (Py.take_bytes bufsize chunk) as [got kept].
    exists got. reflexivity.
Qed.

Lemma get_input_loop_log (fuel : nat) :
  forall msg self msg' self',
    get_input_loop fuel msg self = Some (msg', self') ->
    exists recvs,
      Forall is_recv recvs
      /\ io_log self' = (io_log self ++ recvs)%list
      /\ (Py.contains Py.LF msg = false -> recvs <> []).
Proof.
  induction fuel as [|fuel IH]; intros msg self msg' self'; simpl;
    destruct (Py.contains Py.LF msg) eqn:Hm; try discriminate;
    try (intros E; inversion E; subst; exists [];
         rewrite List.app_nil_r; repeat split; [constructor|discriminate]).
  destruct (recv_log 16 self) as [chunk Hlog].
  destruct (recv 16 self) as [got self1]. simpl in Hlog.
  intros E. apply IH in E as (recvs & Hall & Hl & _).
  exists (Recv chunk :: recvs). split; [|split].
  - constructor; [exists chunk; reflexivity|exact Hall].
  - rewrite Hl, Hlog, <- List.app_assoc. reflexivity.
  - discriminate.
Qed.

Lemma get_input_log (fuel : nat) (self self' : Server) :
  get_input fuel self = Some self' ->
  exists recvs,
    recvs <> [] /\ Forall is_recv recvs
    /\ io_log self' = (io_log self ++ recvs)%list.
Proof.
  unfold get_input.
  destruct (get_input_loop fuel EmptyString self) as [[msg self1]|] eqn:E;
    [|discriminate].
  intros E'; inversion E'; subst self'.
  apply get_input_loop_log in E as (recvs & Hall & Hl & Hne).
  exists recvs. repeat split; [apply Hne; reflexivity|exact Hall|exact Hl].
Qed.

Lemma serve_loop_log (fuel : nat) :
  forall self final,
    serve_loop fuel self = Some final ->
    exists exchanges,
      Forall exchange exchanges
      /\ io_log final = (io_log self ++ concat exchanges)%list.
Proof.
  induction fuel as [|fuel IH]; intros self final; simpl;
    destruct (done self); try discriminate;
    try (intros E; inversion E; subst; exists [];
         simpl; rewrite List.app_nil_r; split; [constructor|reflexivity]).
  destruct (get_input fuel self) as [self1|] eqn:Hg; [|discriminate].
  apply get_input_log in Hg as (recvs & Hne & Hall & Hl).
  intros E. apply IH in E as (exchanges & Hex & Hlog).
  exists ((recvs ++ [SendAll (framed (output_buffer (route self1)))])%list
            :: exchanges).
  split.
  - constructor; [|exact Hex].
    exists recvs, (framed (output_buffer (route self1))). auto.
  - rewrite Hlog. simpl.
    rewrite (proj1 (route_frame self1)), Hl, <- !List.app_assoc. reflexivity.
Qed.

(** The log of a [serve] that returns has one shape: bind, listen, accept,
    the welcome for the current room sent before anything is read, then
    exchanges of one or more reads followed by exactly one send, and last the
    close of the connection and the close of the socket. *)
Theorem serve_log_shape (fuel : nat) (self final : Server) :
  serve fuel self = Some final ->
  exists exchanges,
    Forall exchange exchanges
    /\ io_log final
       = (io_log self
          ++ [Bind (port self); Listen 1; Accept;
              SendAll ("OK! Welcome to " ++ game_name ++ "! "
                       ++ Py.format_value (room_description (room self))
                       ++ " " ++ Py.nl)]
          ++ concat exchanges
          ++ [CloseConnection; CloseSocket])%list.
Proof.
  unfold serve.
  destruct (serve_loop fuel (push_output (greet (connect self))))
    as [last|] eqn:E; [|discriminate].
  intros E'; inversion E'; subst final.
  apply serve_loop_log in E as (exchanges & Hex & Hlog).
  exists exchanges. split; [exact Hex|].
  simpl. rewrite Hlog. simpl. rewrite <- !List.app_assoc. reflexivity.
Qed.

Lemma serve_log_shape_witness :
  exists exchanges,
    Forall exchange exchanges
    /\ io_log (close_all
                 (turn (push_output (greet (connect (init 50000 ["quit" ++ Py.nl]))))
                       ("quit" ++ Py.nl)))
       = ([Bind 50000; Listen 1; Accept;
           SendAll ("OK! Welcome to " ++ game_name ++ "! "
                    ++ Py.format_value (room_description 0) ++ " " ++ Py.nl)]
          ++ concat exchanges
          ++ [CloseConnection; CloseSocket])%list.
Proof.
  apply (serve_log_shape 2 (init 50000 ["quit" ++ Py.nl])).
  vm_compute. reflexivity.
Defined.

(** ** A client that sends one line per chunk *)

Lemma get_input_one_chunk (fuel : nat) (self : Server)
      (chunk : string) (later : list string) :
  inbound self = chunk :: later -> fits chunk ->
  Py.contains Py.LF chunk = true ->
  get_input (S fuel) self
  = Some (set_input_buffer (Py.strip (Py.decode chunk))
            (logged (Recv chunk) (set_inbound (tl (inbound self)) self))).
Proof.
  intros Hin Hf Hl. unfold get_input.
  rewrite (get_input_loop_reads [] EmptyString self (S fuel) chunk later);
    try assumption; try reflexivity; [|constructor|simpl; lia].
  rewrite Hin. simpl. rewrite append_empty. reflexivity.
Qed.

Lemma serve_loop_turn (fuel : nat) (self : Server)
      (chunk : string) (later : list string) :
  done self = false ->
  inbound self = chunk :: later -> fits chunk ->
  Py.contains Py.LF chunk = true ->
  serve_loop (S (S fuel)) self = serve_loop (S fuel) (turn self chunk).
Proof.
  intros Hd Hin Hf Hl.
  change (serve_loop (S (S fuel)) self)
    with (if done self then Some self
          else match get_input (S fuel) self with
               | Some self' => serve_loop (S fuel) (push_output (route self'))
               | None => None
               end).
  rewrite Hd, (get_input_one_chunk fuel self chunk later Hin Hf Hl).
  reflexivity.
Qed.

Lemma turn_frame (self : Server) (chunk : string) :
  inbound (turn self chunk) = tl (inbound self)
  /\ done (turn self chunk)
     = (done self
        || (command_of (Py.strip (Py.decode chunk)) =? "quit")%string)%bool.
Proof.
  unfold turn. split.
  - simpl. rewrite (proj1 (proj2 (route_frame _))). reflexivity.
  - simpl. rewrite route_done. reflexivity.
Qed.

Lemma serve_loop_replay (body : list string) :
  forall (self : Server) (fuel : nat) (last : string) (later : list string),
    done self = false ->
    inbound self = (body ++ last :: later)%list ->
    Forall (fun c => fits c /\ Py.contains Py.LF c = true
                     /\ command_of (Py.strip (Py.decode c)) <> "quit") body ->
    fits last -> Py.contains Py.LF last = true ->
    command_of (Py.strip (Py.decode last)) = "quit" ->
    (length body + 1 < fuel)%nat ->
    serve_loop fuel self = Some (fold_left turn (body ++ [last]) self)
    /\ inbound (fold_left turn (body ++ [last]) self) = later.
Proof.
  induction body as [|c body IH];
    intros self fuel last later Hd Hin Hbody Hf Hl Hq Hfuel;
    (destruct fuel as [|[|fuel]]; [simpl in Hfuel; lia|simpl in Hfuel; lia|]).
  - simpl in Hin. rewrite (serve_loop_turn fuel self last later Hd Hin Hf Hl).
    destruct (turn_frame self last) as [Hi Hdone].
    rewrite Hq, orb_true_r in Hdone.
    rewrite serve_loop_done by exact Hdone.
    change (fold_left turn ([] ++ [last]) self) with (turn self last).
    rewrite Hi, Hin. auto.
  - inversion Hbody as [|? ? (Hfc & Hlc & Hnq) Hbody']; subst.
    simpl in Hin.
    rewrite (serve_loop_turn fuel self c _ Hd Hin Hfc Hlc).
    destruct (turn_frame self c) as [Hi Hdone].
    apply String.eqb_neq in Hnq. rewrite Hd, Hnq in Hdone.
    rewrite Hin in Hi. simpl in Hi.
    simpl fold_left.
    apply (IH (turn self c) (S fuel) last later); try assumption.
    simpl in Hfuel. lia.
Qed.

(** A session on a valid port with a client that connects, stays connected
    and sends each line, of ASCII bytes, in a chunk of its own (at most 16
    bytes, line feed included) and whose first quit is the last of these
    lines comes to an end: with fuel for every line, [serve] returns
    the state reached by taking the turns in order after the welcome, with
    both sockets closed, [done] set and whatever the client sent after the
    quit line still unread. *)
Theorem serve_replays_lines
  (body : list string) (last : string) (later : list string)
  (fuel : nat) (self : Server) :
  valid_port (port self) ->
  Py.isascii (glue (body ++ [last])) = true ->
  done self = false ->
  inbound self = (body ++ last :: later)%list ->
  Forall (fun c => fits c /\ Py.contains Py.LF c = true
                   /\ command_of (Py.strip (Py.decode c)) <> "quit") body ->
  fits last -> Py.contains Py.LF last = true ->
  command_of (Py.strip (Py.decode last)) = "quit" ->
  (length body + 1 < fuel)%nat ->
  serve fuel self
  = Some (close_all
            (fold_left turn (body ++ [last])
               (push_output (greet (connect self)))))
  /\ (forall final, serve fuel self = Some final ->
                    done final = true /\ inbound final = later).
Proof.
  intros _ _ Hd Hin Hbody Hf Hl Hq Hfuel.
  destruct (serve_loop_replay body (push_output (greet (connect self)))
              fuel last later Hd Hin Hbody Hf Hl Hq Hfuel) as [Hs Hi].
  assert (E : serve fuel self
              = Some (close_all
                        (fold_left turn (body ++ [last])
                           (push_output (greet (connect self)))))).
  { unfold serve. rewrite Hs. reflexivity. }
  split; [exact E|].
  intros final Hfin. rewrite E in Hfin. inversion Hfin; subst final.
  split; [|exact Hi].
  assert (Hx : serve_loop fuel (push_output (greet (connect self)))
               = Some (fold_left turn (body ++ [last])
                         (push_output (greet (connect self))))) by exact Hs.
  apply serve_loop_exit in Hx as [Hdone _]; [|exact Hd].
  exact Hdone.
Qed.

Lemma serve_replays_lines_witness :
  option_map room
    (serve 4 (init 50000 ["move west" ++ Py.nl; "say hi" ++ Py.nl;
                          "QUIT" ++ Py.nl; "move east" ++ Py.nl]))
  = Some 2.
Proof.
  assert (Hb : Forall (fun c => fits c /\ Py.contains Py.LF c = true
                               /\ command_of (Py.strip (Py.decode c)) <> "quit")
                      ["move west" ++ Py.nl; "say hi" ++ Py.nl]).
  { repeat constructor; try (unfold fits; simpl; lia); vm_compute; discriminate. }
  assert (Hf : fits ("QUIT" ++ Py.nl)) by (unfold fits; simpl; lia).
  assert (Hlt : (length ["move west" ++ Py.nl; "say hi" ++ Py.nl] + 1 < 4)%nat)
    by (simpl; lia).
  assert (Hp : valid_port
                 (port (init 50000 ["move west" ++ Py.nl; "say hi" ++ Py.nl;
                                    "QUIT" ++ Py.nl; "move east" ++ Py.nl])))
    by (unfold valid_port; simpl; lia).
  destruct (serve_replays_lines
              ["move west" ++ Py.nl; "say hi" ++ Py.nl] ("QUIT" ++ Py.nl)
              ["move east" ++ Py.nl] 4
              (init 50000 ["move west" ++ Py.nl; "say hi" ++ Py.nl;
                           "QUIT" ++ Py.nl; "move east" ++ Py.nl])
              Hp eq_refl eq_refl eq_refl Hb Hf eq_refl eq_refl Hlt) as [E _].
  rewrite E. reflexivity.
Defined.

(** ** A line, however the transport cuts it *)

Lemma take_bytes_app (n : nat) (s : string) :
  fst (Py.take_bytes n s) ++ snd (Py.take_bytes n s) = s.
Proof.
  revert s. induction n as [|n IH]; intros [|c s]; try reflexivity.
  simpl. specialize (IH s). destruct (Py.take_bytes n s) as [a b].
  simpl in *.
  change (String c (a ++ b) = String c s). f_equal. exact IH.
Qed.

Lemma take_bytes_progress (n : nat) (c : ascii) (s : string) :
  (String.length (snd (Py.take_bytes (S n) (String c s))) <= String.length s)%nat.
Proof.
  simpl. pose proof (take_bytes_app n s) as H.
  destruct (Py.take_bytes n s) as [a b]. simpl in *.
  rewrite <- H, append_length. lia.
Qed.

Lemma glue_cons (c : string) (l : list string) : glue (c :: l) = c ++ glue l.
Proof. reflexivity. Qed.

(** What one [recv(16)] does to the bytes still to come. *)
Lemma recv_bytes (self : Server) :
  inbound self <> [] ->
  let '(got, self') := recv 16 self in
  got ++ glue (inbound self') = glue (inbound self)
  /\ (String.length (glue (inbound self')) + length (inbound self')
      < String.length (glue (inbound self)) + length (inbound self))%nat
  /\ room self' = room self /\ done self' = done self
  /\ output_buffer self' = output_buffer self.
Proof.
  intros Hne. unfold recv.
  destruct (inbound self) as [|chunk later]; [contradiction|].
  pose proof (take_bytes_app 16 chunk) as Happ.
  destruct chunk as [|c s].
  - simpl Py.take_bytes. cbv iota beta. simpl inbound. rewrite glue_cons.
    change (EmptyString ++ glue later) with (glue later).
    repeat split; try reflexivity. simpl length. lia.
  - pose proof (take_bytes_progress 15 c s) as Hp.
    destruct (Py.take_bytes 16 (String c s)) as [got kept]. simpl fst in *.
    simpl snd in *.
    destruct kept as [|k kept]; simpl inbound; rewrite !glue_cons.
    + rewrite append_empty in Happ. rewrite Happ.
      repeat split; try reflexivity.
      rewrite append_length. simpl. lia.
    + rewrite <- string_app_assoc, Happ.
      repeat split; try reflexivity.
      rewrite !append_length. simpl String.length. simpl Datatypes.length.
      simpl in Hp. lia.
Qed.

Lemma line_end (a rest line : string) :
  a ++ rest = line ++ Py.nl ->
  Py.contains Py.LF line = false -> Py.contains Py.LF a = true ->
  rest = EmptyString /\ a = line ++ Py.nl.
Proof.
  revert a. induction line as [|y line IH]; intros [|x a] E Hl Ha;
    try discriminate Ha.
  - change (String x (a ++ rest) = String Py.LF EmptyString) in E.
    injection E as Hx E.
    destruct a; [|discriminate E]. simpl in E. subst. auto.
  - change (String x (a ++ rest) = String y (line ++ Py.nl)) in E.
    injection E as Hx E. subst x.
    simpl in Hl, Ha. apply orb_false_iff in Hl as [Hy Hl].
    rewrite Hy in Ha. simpl in Ha.
    destruct (IH a E Hl Ha) as [-> ->]. auto.
Qed.

Lemma get_input_loop_any_chunking (fuel : nat) :
  forall msg self line,
    Py.contains Py.LF msg = false ->
    msg ++ glue (inbound self) = line ++ Py.nl ->
    Py.contains Py.LF line = false ->
    (String.length (glue (inbound self)) + length (inbound self) < fuel)%nat ->
    exists self',
      get_input_loop fuel msg self = Some (line ++ Py.nl, self')
      /\ glue (inbound self') = EmptyString
      /\ room self' = room self /\ done self' = done self
      /\ output_buffer self' = output_buffer self.
Proof.
  induction fuel as [|fuel IH]; intros msg self line Hm E Hl Hfuel; [lia|].
  simpl get_input_loop. rewrite Hm.
  assert (Hne : inbound self <> []).
  { intros Hnil. rewrite Hnil in E. simpl in E. rewrite append_empty in E.
    rewrite E, contains_app in Hm.
    apply orb_false_iff in Hm as [_ Hm]. vm_compute in Hm. discriminate Hm. }
  pose proof (recv_bytes self Hne) as Hr.
  destruct (recv 16 self) as [got self1].
  destruct Hr as (Hg & Hlt & Hroom & Hdone & Hout).
  assert (E1 : (msg ++ got) ++ glue (inbound self1) = line ++ Py.nl)
    by (rewrite string_app_assoc, Hg; exact E).
  destruct (Py.contains Py.LF (msg ++ got)) eqn:Hc.
  - destruct (line_end _ _ _ E1 Hl Hc) as [Hrest Hmsg].
    exists self1. rewrite get_input_loop_ready by exact Hc.
    rewrite Hmsg. auto.
  - destruct (IH (msg ++ got) self1 line Hc E1 Hl) as (self' & H1 & H2 & H3 & H4 & H5);
      [lia|].
    exists self'. rewrite H1. repeat split; congruence.
Qed.

Lemma rstrip_app_nl (t : string) : Py.rstrip (t ++ Py.nl) = Py.rstrip t.
Proof.
  induction t as [|c t IH]; [reflexivity|].
  change (match Py.rstrip (t ++ Py.nl) with
          | EmptyString =>
              if Py.isspace c then EmptyString else String c EmptyString
          | r => String c r
          end = Py.rstrip (String c t)).
  rewrite IH. reflexivity.
Qed.

Lemma strip_app_nl (s : string) : Py.strip (s ++ Py.nl) = Py.strip s.
Proof.
  unfold Py.strip. induction s as [|c s IH]; [reflexivity|].
  change (Py.lstrip (String c s ++ Py.nl))
    with (if Py.isspace c then Py.lstrip (s ++ Py.nl)
          else String c (s ++ Py.nl)).
  simpl Py.lstrip. destruct (Py.isspace c); [exact IH|].
  apply (rstrip_app_nl (String c s)).
Qed.

(** When what the peer has sent and not yet been read is one line of ASCII
    bytes and its line feed, cut into chunks of any sizes (longer than 16
    bytes or empty ones included), [get_input] returns (with fuel for every byte and
    chunk) and the input buffer is that line stripped; nothing of it is left
    to read, and room, [done] and the output buffer are untouched. *)
Theorem get_input_any_chunking (fuel : nat) (self : Server) (line : string) :
  Py.isascii line = true ->
  glue (inbound self) = line ++ Py.nl ->
  Py.contains Py.LF line = false ->
  (String.length line + 1 + length (inbound self) < fuel)%nat ->
  exists self',
    get_input fuel self = Some self'
    /\ input_buffer self' = Py.strip line
    /\ glue (inbound self') = EmptyString
    /\ room self' = room self /\ done self' = done self
    /\ output_buffer self' = output_buffer self.
Proof.
  intros _ E Hl Hfuel. unfold get_input.
  destruct (get_input_loop_any_chunking fuel EmptyString self line)
    as (self1 & H1 & H2 & H3 & H4 & H5); try assumption; try reflexivity.
  { rewrite E, append_length. simpl. lia. }
  exists (set_input_buffer (Py.strip (Py.decode (line ++ Py.nl))) self1).
  rewrite H1. unfold Py.decode. simpl. rewrite strip_app_nl.
  repeat split; assumption.
Qed.

Lemma get_input_any_chunking_witness :
  exists self',
    get_input 60
      (init 50000 ["say this line is longer than six"; EmptyString;
                   "teen bytes " ++ Py.nl])
    = Some self'
    /\ input_buffer self' = "say this line is longer than sixteen bytes"
    /\ glue (inbound self') = EmptyString.
Proof.
  destruct (get_input_any_chunking 60
              (init 50000 ["say this line is longer than six"; EmptyString;
                           "teen bytes " ++ Py.nl])
              "say this line is longer than sixteen bytes ")
    as (self' & H1 & H2 & H3 & _).
  - reflexivity.
  - reflexivity.
  - reflexivity.
  - vm_compute. lia.
  - exists self'. auto.
Defined.

(** ** Lines of a response *)

Lemma first_space (s : string) :
  Py.contains Py.SPACE s = false
  \/ exists v a, s = v ++ String Py.SPACE a /\ Py.contains Py.SPACE v = false.
Proof.
  induction s as [|c s IH]; [left; reflexivity|].
  simpl. destruct (Ascii.eqb_spec c Py.SPACE) as [->|Hne].
  - right. exists EmptyString, s. auto.
  - destruct IH as [H|(v & a & -> & Hv)]; [left; exact H|].
    right. exists (String c v), a. split; [reflexivity|].
    simpl. apply Ascii.eqb_neq in Hne. rewrite Hne. exact Hv.
Qed.

Lemma action_of_contains (c : ascii) (line : string) :
  Py.contains c line = false -> Py.contains c (action_of line) = false.
Proof.
  intros H. destruct (first_space line) as [Hs|(v & a & -> & Hv)].
  - rewrite (proj2 (command_action_without_space line Hs)). reflexivity.
  - change (v ++ String Py.SPACE a) with (v ++ " " ++ a).
    rewrite (proj2 (command_action_at_first_space v a Hv)).
    rewrite contains_app in H. apply orb_false_iff in H as [_ H].
    simpl in H. apply orb_false_iff in H as [_ H]. exact H.
Qed.

Lemma framed_one_line (body : string) :
  Py.contains Py.LF body = false ->
  exists line, framed body = line ++ Py.nl /\ Py.contains Py.LF line = false.
Proof.
  intros H. rewrite framed_shape.
  exists ((if Py.startswith "Bad!" body then body else "OK! " ++ body) ++ " ").
  split; [now rewrite string_app_assoc|].
  destruct (Py.startswith "Bad!" body); rewrite !contains_app, ?H; reflexivity.
Qed.

(** A line without a line feed is answered in one line, the line feed that
    ends the response being its only one, unless the answer is the
    description of room 2: that description, with the plaque, holds line
    feeds of its own, so the response to a move into room 2 spans several
    lines. *)
Theorem response_is_one_line_unless_room_2 (self : Server) :
  Py.contains Py.LF (input_buffer self) = false ->
  (room_description 2 = Some (output_buffer (route self))
   /\ Py.contains Py.LF (output_buffer (route self)) = true
   /\ room (route self) = 2)
  \/ exists line,
       framed (output_buffer (route self)) = line ++ Py.nl
       /\ Py.contains Py.LF line = false.
Proof.
  intros H. pose proof (action_of_contains Py.LF _ H) as Ha.
  unfold route.
  destruct (functions !! command_of (input_buffer self)) as [f|] eqn:E.
  - apply functions_known in E as [[_ ->]|[[_ ->]|[_ ->]]].
    + right. apply framed_one_line. reflexivity.
    + right. apply framed_one_line. simpl output_buffer.
      rewrite !contains_app, Ha. reflexivity.
    + destruct (move_cases (action_of (input_buffer self)) self)
        as [(destination & text & _ & Hd & Hv & _ & Hm)|[_ Hm]]; rewrite Hm.
      * unfold valid_rooms in Hv. simpl in Hv.
        destruct Hv as [<-|[<-|[<-|[<-|[]]]]];
          vm_compute in Hd; injection Hd as <-;
          try (right; apply framed_one_line; reflexivity).
        left. repeat split; reflexivity.
      * right. apply framed_one_line. reflexivity.
  - right. apply framed_one_line. reflexivity.
Qed.

Lemma response_is_one_line_unless_room_2_witness :
  (room_description 2
   = Some (output_buffer (route (set_input_buffer "move west" (init 50000 []))))
   /\ Py.contains Py.LF
        (output_buffer (route (set_input_buffer "move west" (init 50000 []))))
      = true
   /\ room (route (set_input_buffer "move west" (init 50000 []))) = 2)
  \/ exists line,
       framed (output_buffer (route (set_input_buffer "move west" (init 50000 []))))
       = line ++ Py.nl
       /\ Py.contains Py.LF line = false.
Proof.
  apply (response_is_one_line_unless_room_2
           (set_input_buffer "move west" (init 50000 []))).
  reflexivity.
Defined.
